(** * Temporal style tracker: version history, drift detection, persistence

    A shallow embedding of [temporal_tracker.py] (class [TemporalTracker]), of
    the handlers of [app.py] and of the confusion matrix of
    [dataset_evaluator.py], with the properties of the version store, the
    drift and trend analysis and the persistence layer.

    Conventions of the embedding:
    - a Python [float] is a binary64 value, Rocq's primitive [float]; a Python
      number that may be an [int] or a [float] is a [num];
    - text is a [string] read as ASCII;
    - a naive [datetime] is its offset from [datetime.min] in microseconds;
    - [metadata] is JSON data, which is what the HTTP handlers pass on and
      what [json.dump] writes as it stands;
    - [self.documents] is a finite map from document ids to version lists;
      the other dictionaries, whose iteration order reaches the arithmetic,
      are insertion-ordered association lists;
    - methods are computations over the tracker state (documents, the files
      under [storage_path], the console) that may raise. *)

From Stdlib Require Import ZArith Floats String Ascii List Lia Bool Sorted.
From Stdlib Require Import DecimalString DecimalZ DecimalNat.
From stdpp Require Import gmap strings list fin_maps.

Set Warnings "-inexact-float,-register-all".


(** ** Binary64 values *)

(** [float(z)] for a Python int: the nearest binary64 value (ties to even).
    Python raises [OverflowError] beyond the binary64 range, where this
    conversion gives an infinity; the integers of this program are counts,
    and the properties that convert a stored int are stated for the ints
    that fit ([numbers_fit] below). *)
Definition float_of_Z (z : Z) : float :=
  SF2Prim (binary_normalize prec emax z 0 false).

(** Neither an infinity nor a NaN. *)
Definition is_finite (x : float) : bool :=
  match Prim2SF x with S754_zero _ | S754_finite _ _ _ => true | _ => false end.

(** A float that is a positive number or [+inf]. *)
Definition sf_positive (x : spec_float) : Prop :=
  (exists m e, x = S754_finite false m e) \/ x = S754_infinity false.

(** ** Exceptions and results *)

Inductive exn :=
  | ZeroDivisionError
  | KeyError (key : string)
  | IndexError
  | TypeError
  | ValueError
  | AttributeError
  | JSONDecodeError.

(** The outcome of a computation that may raise. *)
Inductive result (A : Type) :=
  | Ret (a : A)
  | Raise (e : exn).
Arguments Ret {A} a.
Arguments Raise {A} e.

#[global] Instance result_ret : MRet result := fun A a => Ret a.
#[global] Instance result_bind : MBind result :=
  fun A B f m => match m with Ret a => f a | Raise e => Raise e end.

(** ** Python numbers

    [int] is unbounded, [float] is binary64; arithmetic on two ints stays in
    [int], anything else converts to [float] first. *)

Inductive num :=
  | NInt (z : Z)
  | NFloat (f : float).

Definition to_float (a : num) : float :=
  match a with NInt z => float_of_Z z | NFloat f => f end.

Definition num_add (a b : num) : num :=
  match a, b with
  | NInt x, NInt y => NInt (x + y)
  | _, _ => NFloat (to_float a + to_float b)
  end.

Definition num_sub (a b : num) : num :=
  match a, b with
  | NInt x, NInt y => NInt (x - y)
  | _, _ => NFloat (to_float a - to_float b)
  end.

(** [abs(a)] *)
Definition num_abs (a : num) : num :=
  match a with NInt z => NInt (Z.abs z) | NFloat f => NFloat (abs f) end.

(** An integer as an exact, unnormalised [spec_float]. *)
Definition sf_of_Z (z : Z) : spec_float :=
  match z with
  | Z0 => S754_zero false
  | Zpos p => S754_finite false p 0
  | Zneg p => S754_finite true p 0
  end.

(** [x / y] on two ints: the quotient of the exact integers, rounded once.
    Python raises [OverflowError] for a quotient beyond the binary64 range,
    where this one is an infinity; see [float_of_Z]. *)
Definition int_truediv (x y : Z) : float :=
  SF2Prim (SFdiv prec emax (sf_of_Z x) (sf_of_Z y)).

Definition num_is_zero (b : num) : bool :=
  match b with NInt z => (z =? 0)%Z | NFloat f => (f =? 0)%float end.

(** The quotient [a / b] yields when [b] is not zero. *)
Definition num_div (a b : num) : num :=
  NFloat match a, b with
         | NInt x, NInt y => int_truediv x y
         | _, _ => (to_float a / to_float b)%float
         end.

(** [a / b]: true division, [ZeroDivisionError] on a zero divisor. *)
Definition truediv (a b : num) : result num :=
  if num_is_zero b then Raise ZeroDivisionError else Ret (num_div a b).

(** Python compares an int with a float by value, without rounding the int. *)
Definition Z_sf_compare (z : Z) (x : spec_float) : option comparison :=
  match x with
  | S754_nan => None
  | S754_infinity s => Some (if s then Gt else Lt)
  | S754_zero _ => Some (z ?= 0)%Z
  | S754_finite s m e =>
      let v := cond_Zopp s (Zpos m) in
      Some (if (0 <=? e)%Z then (z ?= v * 2 ^ e)%Z else (z * 2 ^ (- e) ?= v)%Z)
  end.

(** [a > b] *)
Definition num_gt (a b : num) : bool :=
  match a, b with
  | NInt x, NInt y => (y <? x)%Z
  | NFloat x, NFloat y => (y <? x)%float
  | NInt x, NFloat y =>
      match Z_sf_compare x (Prim2SF y) with Some Gt => true | _ => false end
  | NFloat x, NInt y =>
      match Z_sf_compare y (Prim2SF x) with Some Lt => true | _ => false end
  end.

(** [a < b] *)
Definition num_lt (a b : num) : bool := num_gt b a.

(** [sum(l)]: left to right, from the int [0]. (CPython 3.12 and later
    carry a correction term through a sum of floats; a sum of zeros is the
    same either way, and nothing else below looks inside a sum.) *)
Definition py_sum (l : list num) : num := foldl num_add (NInt 0) l.

(** [len(l)] as a Python int. *)
Definition py_len {A} (l : list A) : num := NInt (Z.of_nat (length l)).

(** [max(l)] and [min(l)] keep the first of equal candidates. *)
Definition py_max (x : num) (l : list num) : num :=
  foldl (fun m y => if num_gt y m then y else m) x l.
Definition py_min (x : num) (l : list num) : num :=
  foldl (fun m y => if num_lt y m then y else m) x l.



(** ** Text: the character classes and the two regular expressions *)

Definition in_range (lo hi : nat) (c : ascii) : bool :=
  (lo <=? nat_of_ascii c)%nat && (nat_of_ascii c <=? hi)%nat.

(** [\w] on ASCII: a letter, a digit or the underscore. *)
Definition is_word_char (c : ascii) : bool :=
  in_range 48 57 c || in_range 65 90 c || in_range 97 122 c || in_range 95 95 c.

(** [c.isupper()] *)
Definition isupper (c : ascii) : bool := in_range 65 90 c.

Definition lower_char (c : ascii) : ascii :=
  if isupper c then ascii_of_nat (nat_of_ascii c + 32) else c.

(** What [str.strip()] removes. *)
Definition is_space (c : ascii) : bool := in_range 9 13 c || in_range 28 32 c.

(** The class [[.!?]]. *)
Definition is_sentence_end (c : ascii) : bool :=
  in_range 46 46 c || in_range 33 33 c || in_range 63 63 c.

(** The class [[,.!?;:-]]. *)
Definition is_punctuation (c : ascii) : bool :=
  is_sentence_end c || in_range 44 45 c || in_range 58 59 c.

(** [text.lower()] *)
Definition lower (text : string) : list ascii :=
  map lower_char (list_ascii_of_string text).

Definition flush (cur : list ascii) : list string :=
  match cur with [] => [] | _ => [string_of_list_ascii (rev cur)] end.

(** [re.findall(r'\b\w+\b', s)]: the maximal runs of word characters.
    [cur] holds the run being read, last character first. *)
Fixpoint findall_words (cs cur : list ascii) : list string :=
  match cs with
  | [] => flush cur
  | c :: cs' =>
      if is_word_char c then findall_words cs' (c :: cur)
      else flush cur ++ findall_words cs' []
  end.

(** [re.split(r'[.!?]+', s)]: the pieces between maximal runs of sentence
    enders, empty pieces at either end included. [in_sep] says the previous
    character was an ender. *)
Fixpoint split_sentences (cs cur : list ascii) (in_sep : bool) : list (list ascii) :=
  match cs with
  | [] => [rev cur]
  | c :: cs' =>
      if is_sentence_end c then
        if in_sep then split_sentences cs' cur true
        else rev cur :: split_sentences cs' [] true
      else split_sentences cs' (c :: cur) false
  end.

Fixpoint lstrip (cs : list ascii) : list ascii :=
  match cs with
  | c :: cs' => if is_space c then lstrip cs' else cs
  | [] => []
  end.

(** [s.strip()] *)
Definition strip (cs : list ascii) : list ascii := rev (lstrip (rev (lstrip cs))).

Definition nonempty {A} (l : list A) : bool := match l with [] => false | _ => true end.

(** [len(set(words))] *)
Definition count_distinct (words : list string) : nat :=
  length (remove_dups words).

(** ** Style features *)

Definition features := list (string * num).

(** [a / b if b > 0 else 0] *)
Definition ratio (a b : Z) : result num :=
  if num_gt (NInt b) (NInt 0) then truediv (NInt a) (NInt b) else mret (NInt 0).

Definition _extract_style_features (text : string) : result features :=
  let words := findall_words (lower text) [] in
  let sentences := split_sentences (list_ascii_of_string text) [] false in
  let sentences := map strip (filter (fun s => nonempty (strip s)) sentences) in
  let word_count := Z.of_nat (length words) in
  let sentence_count := Z.of_nat (length sentences) in
  let char_count := Z.of_nat (String.length text) in
  avg_sentence_length ← ratio word_count sentence_count;
  avg_word_length ←
    ratio (Z.of_nat (list_sum (map String.length words))) word_count;
  lexical_diversity ← ratio (Z.of_nat (count_distinct words)) word_count;
  punctuation_ratio ←
    ratio (Z.of_nat (length (filter is_punctuation (list_ascii_of_string text))))
          char_count;
  caps_ratio ←
    ratio (Z.of_nat (length (filter isupper (list_ascii_of_string text))))
          char_count;
  mret [("avg_sentence_length", avg_sentence_length);
        ("avg_word_length", avg_word_length);
        ("lexical_diversity", lexical_diversity);
        ("punctuation_ratio", punctuation_ratio);
        ("caps_ratio", caps_ratio);
        ("word_count", NInt word_count);
        ("sentence_count", NInt sentence_count)].

(** ** JSON values and dictionaries

    A [json] is what [json.load] returns and [json.dump] accepts: [None],
    [bool], number, [str], [list], and [dict] with string keys, the latter an
    association list in insertion order (a dictionary has distinct keys). *)

Inductive json :=
  | JNull
  | JBool (b : bool)
  | JNum (n : num)
  | JStr (s : string)
  | JArr (items : list json)
  | JObj (members : list (string * json)).

(** [d.get(k)] *)
Fixpoint dict_get {A} (k : string) (d : list (string * A)) : option A :=
  match d with
  | [] => None
  | (k', v) :: d' => if String.eqb k k' then Some v else dict_get k d'
  end.

(** [k in d] *)
Definition dict_mem {A} (k : string) (d : list (string * A)) : bool :=
  match dict_get k d with Some _ => true | None => false end.

(** [d[k] = v]: a present key keeps its place, a new one goes last. *)
Fixpoint dict_set {A} (k : string) (v : A) (d : list (string * A)) : list (string * A) :=
  match d with
  | [] => [(k, v)]
  | (k', v') :: d' =>
      if String.eqb k k' then (k, v) :: d' else (k', v') :: dict_set k v d'
  end.

(** Truth value of a JSON value, as [x or default] tests it. *)
Definition truthy (j : json) : bool :=
  match j with
  | JNull => false
  | JBool b => b
  | JNum n => negb (num_is_zero n)
  | JStr s => negb (String.eqb s "")
  | JArr l => nonempty l
  | JObj m => nonempty m
  end.

(** ** The data model *)

(** A naive [datetime]: microseconds since [datetime.min]. *)
Definition datetime := Z.

Record VersionSnapshot := {
  version_id : string;
  timestamp : datetime;
  text : string;
  authenticity_score : num;
  style_features : features;
  metadata : json;
}.

(** What a file under [storage_path] holds: a complete JSON document, or
    text that [json.load] rejects (an empty or half-written file included). *)
Inductive file_content :=
  | Unparseable
  | Doc (data : json).

Inductive console_line :=
  | AuthenticityFailed (e : exn)
  | CouldNotLoadHistory (e : exn).

(** The tracker with its surroundings: [self.documents], the files under
    [self.storage_path] by name, and what was printed on the console. *)
Record state := {
  documents : gmap string (list VersionSnapshot);
  disk : gmap string file_content;
  console : list console_line;
}.

Definition set_documents (f : gmap string (list VersionSnapshot) ->
                              gmap string (list VersionSnapshot)) (st : state) : state :=
  {| documents := f (documents st); disk := disk st; console := console st |}.

Definition set_disk (f : gmap string file_content -> gmap string file_content)
    (st : state) : state :=
  {| documents := documents st; disk := f (disk st); console := console st |}.

(** ** Computations over the state *)

Definition M (A : Type) : Type := state -> result A * state.

#[global] Instance M_ret : MRet M := fun A a st => (Ret a, st).
#[global] Instance M_bind : MBind M :=
  fun A B f m st =>
    match m st with
    | (Ret a, st') => f a st'
    | (Raise e, st') => (Raise e, st')
    end.

Definition lift {A} (r : result A) : M A := fun st => (r, st).

(** [console.print(...)] *)
Definition console_print (l : console_line) : M unit :=
  fun st => (Ret tt, {| documents := documents st; disk := disk st;
                        console := console st ++ [l] |}).

(** [self.documents.get(document_id, [])]: no entry is created. *)
Definition documents_get (document_id : string) : M (list VersionSnapshot) :=
  fun st => (Ret (default [] (documents st !! document_id)), st).

(** [self.documents[document_id]] on the [defaultdict(list)]: a missing id
    gets an empty list. *)
Definition documents_getitem (document_id : string) : M (list VersionSnapshot) :=
  fun st =>
    match documents st !! document_id with
    | Some vs => (Ret vs, st)
    | None => (Ret [], set_documents (insert document_id []) st)
    end.

(** Replace the list object held for [document_id] (the in-place list
    methods below end in it). *)
Definition documents_store (document_id : string) (vs : list VersionSnapshot) : M unit :=
  fun st => (Ret tt, set_documents (insert document_id vs) st).

(** [self.documents[document_id].append(snapshot)] *)
Definition documents_append (document_id : string) (snapshot : VersionSnapshot) : M unit :=
  vs ← documents_getitem document_id;
  documents_store document_id (vs ++ [snapshot]).

(** [list.sort(key=lambda v: v.timestamp)] is stable. The list is rebuilt
    from its end, so [v] meets only versions that came after it, and goes
    before the first of them whose timestamp is not earlier. *)
Fixpoint insert_by_timestamp (v : VersionSnapshot) (l : list VersionSnapshot)
  : list VersionSnapshot :=
  match l with
  | [] => [v]
  | w :: l' =>
      if (timestamp v <=? timestamp w)%Z then v :: w :: l'
      else w :: insert_by_timestamp v l'
  end.

Definition sort_by_timestamp (l : list VersionSnapshot) : list VersionSnapshot :=
  foldr insert_by_timestamp [] l.

(** [self.documents[document_id].sort(key=lambda v: v.timestamp)] *)
Definition documents_sort (document_id : string) : M unit :=
  vs ← documents_getitem document_id;
  documents_store document_id (sort_by_timestamp vs).

(** ** Authenticity scoring *)

(** What the chat completion call gives: the message text, or an exception
    raised anywhere before the text is searched. *)
Inductive reply :=
  | CallRaises (e : exn)
  | Content (c : string).

(** The surroundings of one [add_version] call: the clock, and the module's
    [client] ([None] when the import failed) as a function of the text sent. *)
Record Env := {
  now : datetime;
  client : option (string -> reply);
}.

Definition is_digit (c : ascii) : bool := in_range 48 57 c.
Definition is_number_char (c : ascii) : bool := is_digit c || in_range 46 46 c.

Fixpoint take_while {A} (p : A -> bool) (l : list A) : list A :=
  match l with
  | x :: l' => if p x then x :: take_while p l' else []
  | [] => []
  end.

Fixpoint drop_while {A} (p : A -> bool) (l : list A) : list A :=
  match l with
  | x :: l' => if p x then drop_while p l' else l
  | [] => []
  end.

(** [re.search(r'([\d.]+)', s)]: the first maximal run of digits and dots. *)
Definition search_number (s : string) : option (list ascii) :=
  match take_while is_number_char
          (drop_while (fun c => negb (is_number_char c)) (list_ascii_of_string s)) with
  | [] => None
  | run => Some run
  end.

Definition digits_value (ds : list ascii) : Z :=
  foldl (fun acc c => (10 * acc + Z.of_nat (nat_of_ascii c - 48))%Z) 0%Z ds.

(** [float(s)] on a run of digits and dots: at most one dot and at least one
    digit, else [ValueError]; the decimal is rounded once. *)
Definition float_of_digits (run : list ascii) : result float :=
  let int_part := take_while is_digit run in
  let rest := drop_while is_digit run in
  let frac := match rest with _ :: fr => fr | [] => [] end in
  if forallb is_digit frac && nonempty (int_part ++ frac) then
    Ret (SF2Prim (SFdiv prec emax (sf_of_Z (digits_value (int_part ++ frac)))
                                  (sf_of_Z (10 ^ Z.of_nat (length frac)))))
  else Raise ValueError.

(** [max(0.0, min(1.0, score))] *)
Definition clamp (score : float) : float :=
  let m := if (score <? 1.0)%float then score else 1.0%float in
  if (0.0 <? m)%float then m else 0.0%float.

(** [text[:n]] *)
Definition prefix (n : nat) (s : string) : string := String.substring 0 n s.

Definition _analyze_authenticity (env : Env) (text : string) : M num :=
  match client env with
  | None => mret (NFloat 0.7)
  | Some create =>
      match create (prefix 1500 text) with
      | CallRaises e => console_print (AuthenticityFailed e) ;; mret (NFloat 0.5)
      | Content c =>
          match search_number c with
          | Some run =>
              match float_of_digits run with
              | Ret score => mret (NFloat (clamp score))
              | Raise e => console_print (AuthenticityFailed e) ;; mret (NFloat 0.5)
              end
          | None => mret (NFloat 0.5)
          end
      end
  end.

(** ** The two [datetime] functions, for naive datetimes

    The tracker is stated over any [isoformat] and [fromisoformat]; these
    are the library's own, on the proleptic Gregorian calendar, for the
    examples. *)

Definition digit_char (d : Z) : ascii := ascii_of_nat (48 + Z.to_nat d).

(** [n] in decimal on [width] digits, zero-padded. *)
Fixpoint zero_padded (width : nat) (n : Z) (acc : string) : string :=
  match width with
  | O => acc
  | S w => zero_padded w (n `div` 10)%Z (String (digit_char (n `mod` 10)%Z) acc)
  end.

Definition is_leap (y : Z) : bool :=
  ((y `mod` 4 =? 0) && (negb (y `mod` 100 =? 0) || (y `mod` 400 =? 0)))%Z.

Definition days_in_month (y m : Z) : Z :=
  if (m =? 2)%Z then (if is_leap y then 29 else 28)%Z
  else if ((m =? 4) || (m =? 6) || (m =? 9) || (m =? 11))%Z then 30%Z else 31%Z.

Definition days_before_year (y : Z) : Z :=
  ((y - 1) * 365 + (y - 1) `div` 4 - (y - 1) `div` 100 + (y - 1) `div` 400)%Z.

Definition days_before_month (y m : Z) : Z :=
  foldr Z.add 0%Z (map (days_in_month y) (map Z.of_nat (seq 1 (Z.to_nat m - 1)))).

(** Days since 0001-01-01 of a date. *)
Definition date_to_days (y m d : Z) : Z :=
  (days_before_year y + days_before_month y m + (d - 1))%Z.

(** The year holding day number [n] (days since 0001-01-01), Gregorian. *)
Definition year_of_days (n : Z) : Z :=
  let n400 := (n `div` 146097)%Z in
  let r400 := (n `mod` 146097)%Z in
  let n100 := (r400 `div` 36524)%Z in
  let r100 := (r400 `mod` 36524)%Z in
  let n4 := (r100 `div` 1461)%Z in
  let r4 := (r100 `mod` 1461)%Z in
  let n1 := (r4 `div` 365)%Z in
  let y := (n400 * 400 + n100 * 100 + n4 * 4 + n1 + 1)%Z in
  if ((n1 =? 4) || (n100 =? 4))%Z then (y - 1)%Z else y.

Fixpoint month_of_rest (y : Z) (rest : Z) (m : Z) (fuel : nat) : Z * Z :=
  match fuel with
  | O => (m, rest)
  | S f =>
      if (rest <? days_in_month y m)%Z then (m, rest)
      else month_of_rest y (rest - days_in_month y m)%Z (m + 1)%Z f
  end.

(** [datetime.isoformat()] of a naive datetime: [YYYY-MM-DDTHH:MM:SS], with
    [.ffffff] when the microsecond is not zero. *)
Definition isoformat_naive (t : datetime) : string :=
  let us := (t `mod` 1000000)%Z in
  let secs := (t `div` 1000000)%Z in
  let days := (secs `div` 86400)%Z in
  let sod := (secs `mod` 86400)%Z in
  let y := year_of_days days in
  let '(m, d0) := month_of_rest y (days - days_before_year y)%Z 1%Z 11 in
  zero_padded 4 y "" +:+ "-" +:+ zero_padded 2 m "" +:+ "-"
  +:+ zero_padded 2 (d0 + 1)%Z "" +:+ "T"
  +:+ zero_padded 2 (sod `div` 3600)%Z "" +:+ ":"
  +:+ zero_padded 2 ((sod `mod` 3600) `div` 60)%Z "" +:+ ":"
  +:+ zero_padded 2 (sod `mod` 60)%Z ""
  +:+ (if (us =? 0)%Z then "" else "." +:+ zero_padded 6 us "").

Definition digit_value (c : ascii) : option Z :=
  let n := nat_of_ascii c in
  if ((48 <=? n) && (n <=? 57))%nat then Some (Z.of_nat (n - 48)) else None.

Fixpoint number_of (cs : list ascii) (acc : Z) : option Z :=
  match cs with
  | [] => Some acc
  | c :: cs' =>
      match digit_value c with
      | Some d => number_of cs' (10 * acc + d)%Z
      | None => None
      end
  end.

(** Characters [i, i + n) as a number. *)
Definition field (cs : list ascii) (i n : nat) : option Z :=
  let f := take n (drop i cs) in
  if (length f =? n)%nat then number_of f 0%Z else None.

Definition char_at (cs : list ascii) (i : nat) (c : ascii) : bool :=
  match cs !! i with Some c' => Ascii.eqb c c' | None => false end.

(** [datetime.fromisoformat] on the strings [isoformat] writes for naive
    datetimes; anything else is [None]. *)
Definition fromisoformat_naive (s : string) : option datetime :=
  let cs := list_ascii_of_string s in
  let n := length cs in
  if negb ((n =? 19)%nat || (n =? 26)%nat) then None
  else if negb (char_at cs 4 "-" && char_at cs 7 "-" && char_at cs 13 ":"
                && char_at cs 16 ":" && ((n =? 19)%nat || char_at cs 19 "."))
  then None
  else
    y ← field cs 0 4; m ← field cs 5 2; d ← field cs 8 2;
    h ← field cs 11 2; mi ← field cs 14 2; sec ← field cs 17 2;
    us ← (if (n =? 19)%nat then Some 0%Z else field cs 20 6);
    if ((1 <=? y) && (1 <=? m) && (m <=? 12) && (1 <=? d) && (d <=? days_in_month y m)
        && (h <? 24) && (mi <? 60) && (sec <? 60))%Z
    then Some ((((date_to_days y m d * 24 + h) * 60 + mi) * 60 + sec) * 1000000 + us)%Z
    else None.

(** ** Files under the storage directory *)

(** The steps a write is made of. [OpenW] is [open(path, 'w')]: the file
    exists and is empty from then on. [Dump] is [json.dump] run to its end on
    the open file. [Rename] moves a file over another. *)
Inductive fs_op :=
  | OpenW (path : string)
  | Dump (path : string) (data : json)
  | Rename (src dst : string).

Definition fs_step (d : gmap string file_content) (op : fs_op)
  : gmap string file_content :=
  match op with
  | OpenW p => <[p := Unparseable]> d
  | Dump p j => <[p := Doc j]> d
  | Rename src dst =>
      match d !! src with
      | Some c => <[dst := c]> (delete src d)
      | None => d
      end
  end.

Definition fs_run (ops : list fs_op) (d : gmap string file_content)
  : gmap string file_content := foldl fs_step d ops.

(** [self.storage_path / "history.json"], relative to the storage directory. *)
Definition history_path : string := "history.json".

(** [str(n)] for a non-negative int. *)
Definition str (n : nat) : string := NilZero.string_of_uint (Nat.to_uint n).

Section Tracker.

(** [datetime.isoformat], [datetime.fromisoformat] ([None] stands for its
    [ValueError]) and [numpy.var] (as [float(np.var(values))]; numpy is
    taken to be installed) are library functions, taken as given. *)
Variable isoformat : datetime -> string.
Variable fromisoformat : string -> option datetime.
Variable np_var : list num -> float.

(** ** Persisting the store *)

Definition features_data (f : features) : json :=
  JObj (map (fun kv => (kv.1, JNum kv.2)) f).

(** The dictionary [_save_history] builds for one snapshot. *)
Definition snapshot_data (v : VersionSnapshot) : json :=
  JObj [("version_id", JStr (version_id v));
        ("timestamp", JStr (isoformat (timestamp v)));
        ("text", JStr (text v));
        ("authenticity_score", JNum (authenticity_score v));
        ("style_features", features_data (style_features v));
        ("metadata", metadata v)].

(** [data] of [_save_history]: one entry per document, here in the key
    order of the map; the loader stores the entries one by one under their
    ids, so the order of complete entries does not reach the store. *)
Definition history_data (docs : gmap string (list VersionSnapshot)) : json :=
  JObj (map (fun kv => (kv.1, JArr (map snapshot_data kv.2))) (map_to_list docs)).

(** [with open(file_path, 'w') as f: json.dump(data, f, indent=2)] *)
Definition _save_history_ops (docs : gmap string (list VersionSnapshot)) : list fs_op :=
  [OpenW history_path; Dump history_path (history_data docs)].

Definition _save_history : M unit :=
  fun st => (Ret tt, set_disk (fs_run (_save_history_ops (documents st))) st).

(** ** The version store *)

(** [metadata or {}] *)
Definition metadata_or_empty (metadata : option json) : json :=
  match metadata with
  | Some m => if truthy m then m else JObj []
  | None => JObj []
  end.

Definition add_version (env : Env) (document_id text : string)
    (ts : option datetime) (meta : option json) : M VersionSnapshot :=
  let ts := default (now env) ts in
  score ← _analyze_authenticity env text;
  feats ← lift (_extract_style_features text);
  vs ← documents_getitem document_id;
  let snapshot :=
    {| version_id := document_id +:+ "_v" +:+ str (length vs + 1);
       timestamp := ts;
       text := text;
       authenticity_score := score;
       style_features := feats;
       metadata := metadata_or_empty meta |} in
  documents_append document_id snapshot;;
  documents_sort document_id;;
  _save_history;;
  mret snapshot.

(** ** Drift detection *)

(** One entry of ["drift_points"]. *)
Record drift_point := {
  from_version : string;
  to_version : string;
  point_timestamp : datetime;
  point_drift_score : num;
  auth_drift : num;
  feature_drifts : features;
}.

(** The dictionary [detect_style_drift] returns; a key the early return
    leaves out is [None]. *)
Record drift_report := {
  drift_detected : bool;
  drift_score : num;
  details : option string;
  drift_points : option (list drift_point);
  total_versions : option nat;
  significant_changes : option nat;
}.

(** [d[k]] *)
Definition getitem {A} (k : string) (d : list (string * A)) : result A :=
  match dict_get k d with Some v => Ret v | None => Raise (KeyError k) end.

(** [l[i]] for [i >= 0] *)
Definition list_getitem {A} (l : list A) (i : nat) : result A :=
  match l !! i with Some x => Ret x | None => Raise IndexError end.

Fixpoint foldM {A B} (f : B -> A -> result B) (l : list A) (b : B) : result B :=
  match l with
  | [] => Ret b
  | x :: l' => b' ← f b x; foldM f l' b'
  end.

(** [sum(l) / len(l) if l else 0] *)
Definition average (l : list num) : result num :=
  if nonempty l then truediv (py_sum l) (py_len l) else mret (NInt 0).

(** The body of [for key in prev.style_features.keys()]. *)
Definition feature_drifts_step (prev curr acc : features) (key : string)
  : result features :=
  if dict_mem key curr then
    c ← getitem key curr;
    p ← getitem key prev;
    mret (dict_set key (num_abs (num_sub c p)) acc)
  else mret acc.

(** The body of [for i in range(1, len(versions))] on the two accumulators
    [drifts] and [drift_points]. *)
Definition drift_step (versions : list VersionSnapshot)
    (acc : list num * list drift_point) (i : nat)
  : result (list num * list drift_point) :=
  prev ← list_getitem versions (i - 1);
  curr ← list_getitem versions i;
  fdrifts ← foldM (feature_drifts_step (style_features prev) (style_features curr))
                  (map fst (style_features prev)) [];
  dscore ← average (map snd fdrifts);
  let adrift := num_abs (num_sub (authenticity_score curr) (authenticity_score prev)) in
  total_drift ← truediv (num_add dscore adrift) (NInt 2);
  let points :=
    if num_gt total_drift (NFloat 0.15) then
      acc.2 ++ [{| from_version := version_id prev;
                   to_version := version_id curr;
                   point_timestamp := timestamp curr;
                   point_drift_score := total_drift;
                   auth_drift := adrift;
                   feature_drifts := fdrifts |}]
    else acc.2 in
  mret (acc.1 ++ [total_drift], points).

Definition detect_style_drift (document_id : string) (window_size : Z)
  : M drift_report :=
  versions ← documents_get document_id;
  if (length versions <? 2)%nat then
    mret {| drift_detected := false; drift_score := NFloat 0.0;
            details := Some "Insufficient versions";
            drift_points := None; total_versions := None;
            significant_changes := None |}
  else
    acc ← lift (foldM (drift_step versions) (seq 1 (length versions - 1)) ([], []));
    avg_drift ← lift (average acc.1);
    mret {| drift_detected := (0 <? length acc.2)%nat;
            drift_score := avg_drift;
            details := None;
            drift_points := Some acc.2;
            total_versions := Some (length versions);
            significant_changes := Some (length acc.2) |}.

(** ** Version history analysis *)

(** One entry of ["feature_evolution"]. *)
Record feature_stats := {
  variance : float;
  range : num;
  trend : string;
}.

(** The report of [analyze_version_history], its nested dictionaries
    flattened. *)
Record analysis := {
  analysis_document_id : string;
  analysis_total_versions : nat;
  time_span_start : string;
  time_span_end : string;
  duration_days : Z;
  direction : string;
  magnitude : num;
  scores : list num;
  feature_evolution : list (string * feature_stats);
  drift_analysis : drift_report;
}.

Inductive analysis_result :=
  | NoVersions (error : string)
  | Analysis (a : analysis).

(** [feature_evolution[key].append(value)] on the [defaultdict(list)]. *)
Definition evolution_append (acc : list (string * list num)) (kv : string * num)
  : list (string * list num) :=
  dict_set kv.1 (default [] (dict_get kv.1 acc) ++ [kv.2]) acc.

(** The values of each feature key across the versions, in first-seen order. *)
Definition collect_evolution (versions : list VersionSnapshot)
  : list (string * list num) :=
  foldl (fun acc v => foldl evolution_append acc (style_features v)) [] versions.

Definition stats_of (values : list num) : feature_stats :=
  let first := default (NInt 0) (head values) in
  let final := default (NInt 0) (last values) in
  {| variance := np_var values;
     range := num_sub (py_max first (tail values)) (py_min first (tail values));
     trend := if num_gt final first then "increasing"
              else if num_lt final first then "decreasing" else "stable" |}.

Definition variance_analysis (versions : list VersionSnapshot)
  : list (string * feature_stats) :=
  map (fun kv => (kv.1, stats_of kv.2))
      (filter (fun kv => 1 < length kv.2) (collect_evolution versions)).

(** [timedelta.days] of the difference of two datetimes. *)
Definition days_between (t0 t1 : datetime) : Z := ((t1 - t0) `div` 86400000000)%Z.

Definition analyze_version_history (document_id : string) : M analysis_result :=
  versions ← documents_get document_id;
  match versions with
  | [] => mret (NoVersions "No versions found")
  | v0 :: _ =>
      let vlast := default v0 (last versions) in
      let many := (1 <? length versions)%nat in
      drift ← detect_style_drift document_id 3;
      mret (Analysis
        {| analysis_document_id := document_id;
           analysis_total_versions := length versions;
           time_span_start := isoformat (timestamp v0);
           time_span_end := isoformat (timestamp vlast);
           duration_days :=
             if many then days_between (timestamp v0) (timestamp vlast) else 0%Z;
           direction :=
             if many then
               if num_gt (authenticity_score vlast) (authenticity_score v0)
               then "increasing" else "decreasing"
             else "stable";
           magnitude :=
             if many then
               num_abs (num_sub (authenticity_score vlast) (authenticity_score v0))
             else NInt 0;
           scores := map authenticity_score versions;
           feature_evolution := variance_analysis versions;
           drift_analysis := drift |})
  end.

(** ** The store-facing handlers of [app.py] *)

(** [get_versions]: the response body. *)
Definition get_versions (document_id : string) : M json :=
  versions ← documents_get document_id;
  mret (JObj [("document_id", JStr document_id);
              ("versions", JArr (map snapshot_data versions))]).

(** [delete_document]: the status code. *)
Definition delete_document (document_id : string) : M nat :=
  fun st =>
    match documents st !! document_id with
    | Some _ =>
        (_save_history ;; mret 200%nat) (set_documents (delete document_id) st)
    | None => (Ret 404%nat, st)
    end.

(** ** Loading the history *)

(** [for v in x] on a JSON value. *)
Definition iterate (j : json) : result (list json) :=
  match j with
  | JArr l => Ret l
  | JStr s => Ret (map (fun c => JStr (String c EmptyString)) (list_ascii_of_string s))
  | JObj m => Ret (map (fun kv => JStr kv.1) m)
  | _ => Raise TypeError
  end.

(** [v[k]] with a string key. *)
Definition subscript (v : json) (k : string) : result json :=
  match v with
  | JObj m => getitem k m
  | _ => Raise TypeError
  end.

(** [v.get(k, {})] *)
Definition get_or_empty (v : json) (k : string) : result json :=
  match v with
  | JObj m => Ret (default (JObj []) (dict_get k m))
  | _ => Raise AttributeError
  end.

(** The dataclass stores whatever it is given. The embedding's snapshots are
    typed as the class annotates them, so a field of another JSON type is
    reported here, as a [TypeError], where Python would keep the value and
    fail at its first use. The records [_save_history] writes and the
    failures of the examples (a missing key) do not come this way. *)
Definition as_str (j : json) : result string :=
  match j with JStr s => Ret s | _ => Raise TypeError end.

Definition as_num (j : json) : result num :=
  match j with JNum n => Ret n | _ => Raise TypeError end.

Fixpoint as_num_members (m : list (string * json)) : result features :=
  match m with
  | [] => Ret []
  | (k, j) :: m' => n ← as_num j; f ← as_num_members m'; mret ((k, n) :: f)
  end.

Definition as_features (j : json) : result features :=
  match j with JObj m => as_num_members m | _ => Raise TypeError end.

(** [datetime.fromisoformat(x)] *)
Definition parse_timestamp (j : json) : result datetime :=
  match j with
  | JStr s => match fromisoformat s with Some t => Ret t | None => Raise ValueError end
  | _ => Raise TypeError
  end.

(** [VersionSnapshot(version_id=v["version_id"], ...)] *)
Definition reconstruct (v : json) : result VersionSnapshot :=
  vid ← subscript v "version_id" ≫= as_str;
  ts ← subscript v "timestamp" ≫= parse_timestamp;
  txt ← subscript v "text" ≫= as_str;
  score ← subscript v "authenticity_score" ≫= as_num;
  feats ← subscript v "style_features" ≫= as_features;
  meta ← get_or_empty v "metadata";
  mret {| version_id := vid; timestamp := ts; text := txt;
          authenticity_score := score; style_features := feats;
          metadata := meta |}.

Fixpoint map_result {A B} (f : A -> result B) (l : list A) : result (list B) :=
  match l with
  | [] => Ret []
  | x :: l' => y ← f x; ys ← map_result f l'; mret (y :: ys)
  end.

(** [[VersionSnapshot(...) for v in versions_data]] *)
Definition rebuild (versions_data : json) : result (list VersionSnapshot) :=
  iterate versions_data ≫= map_result reconstruct.

(** The loop [for doc_id, versions_data in data.items()]: an entry is stored
    as soon as its list is built; the first exception ends the loop. *)
Fixpoint load_items (items : list (string * json))
    (docs : gmap string (list VersionSnapshot))
  : result unit * gmap string (list VersionSnapshot) :=
  match items with
  | [] => (Ret tt, docs)
  | (doc_id, versions_data) :: rest =>
      match rebuild versions_data with
      | Ret vs => load_items rest (<[doc_id := vs]> docs)
      | Raise e => (Raise e, docs)
      end
  end.

(** The body of the [try]: [json.load], then the loop. *)
Definition load_content (c : file_content) (docs : gmap string (list VersionSnapshot))
  : result unit * gmap string (list VersionSnapshot) :=
  match c with
  | Unparseable => (Raise JSONDecodeError, docs)
  | Doc (JObj items) => load_items items docs
  | Doc _ => (Raise AttributeError, docs)
  end.

Definition _load_history : M unit :=
  fun st =>
    match disk st !! history_path with
    | None => (Ret tt, st)
    | Some c =>
        let '(r, docs) := load_content c (documents st) in
        let st' := set_documents (fun _ => docs) st in
        match r with
        | Ret _ => (Ret tt, st')
        | Raise e => console_print (CouldNotLoadHistory e) st'
        end
    end.

(** [TemporalTracker.__init__]: an empty store, then [_load_history]. *)
Definition __init__ : M unit :=
  fun st => _load_history (set_documents (fun _ => ∅) st).

End Tracker.

(** ** The other handlers of [app.py]

    They are kept under the module's name, [add_version] being also the name
    of the tracker's method. A handler reads [request.json], any JSON value,
    through [data.get('text', '')] and [data.get('metadata', {})], and hands
    the text to the tracker as it is, a string or not. *)


(** [try: m] followed by [except Exception as e: h e]. *)
Definition try_except {A} (m : M A) (h : exn -> M A) : M A :=
  fun st =>
    match m st with
    | (Ret a, st') => (Ret a, st')
    | (Raise e, st') => h e st'
    end.

(** [v.get(k, dflt)] *)
Definition get_or (v : json) (k : string) (dflt : json) : result json :=
  match v with
  | JObj m => Ret (default dflt (dict_get k m))
  | _ => Raise AttributeError
  end.

(** What a handler hands to [jsonify]: a dictionary, or [{"error": str(e)}]
    for the exception it caught. *)
Inductive body :=
  | Jsonify (j : json)
  | ErrorBody (e : exn).

(** The body with the status code. *)
Definition response : Type := body * nat.

Module app.
Section Handlers.

Variable isoformat : datetime -> string.

(** [str(l)] of a list, as an f-string formats it. *)
Variable list_str : list json -> string.

(** What [d[:1500]] raises on a dict: a [TypeError] (a slice cannot be
    hashed) before Python 3.12, a [KeyError] from then on. *)
Variable dict_slice_error : exn.

(** [text[:1500]] in the prompt of [_analyze_authenticity], formatted: a
    string or a list is cut; a number, a boolean or [None] has no
    subscript. *)
Definition prompt_text (text : json) : result string :=
  match text with
  | JStr s => Ret (prefix 1500 s)
  | JArr l => Ret (list_str (take 1500 l))
  | JObj _ => Raise dict_slice_error
  | _ => Raise TypeError
  end.

(** What [_analyze_authenticity] makes of the reply to its call. *)
Definition score_reply (r : reply) : M num :=
  match r with
  | CallRaises e => console_print (AuthenticityFailed e) ;; mret (NFloat 0.5)
  | Content c =>
      match search_number c with
      | Some run =>
          match float_of_digits run with
          | Ret score => mret (NFloat (clamp score))
          | Raise e => console_print (AuthenticityFailed e) ;; mret (NFloat 0.5)
          end
      | None => mret (NFloat 0.5)
      end
  end.

(** [tracker._analyze_authenticity(text)] on the text of a request: the
    prompt is built before the [try]. On a string it is
    [_analyze_authenticity]. *)
Definition analyze_authenticity_of (env : Env) (text : json) : M num :=
  match client env with
  | None => mret (NFloat 0.7)
  | Some create =>
      prompt ← lift (prompt_text text);
      score_reply (create prompt)
  end.

(** [tracker._extract_style_features(text)] on the text of a request:
    [text.lower()] is there for a string only. *)
Definition extract_style_features_of (text : json) : result features :=
  match text with
  | JStr s => _extract_style_features s
  | _ => Raise AttributeError
  end.

(** [tracker.add_version(document_id, text, metadata=metadata)] on the text
    of a request: one that is not a string ends the call in
    [_extract_style_features], if not before, with nothing stored yet; the
    closing [Raise] of that branch is never reached and gives it its
    type. *)
Definition tracker_add_version (env : Env) (document_id : string) (text meta : json)
  : M VersionSnapshot :=
  match text with
  | JStr s => add_version isoformat env document_id s None (Some meta)
  | _ =>
      analyze_authenticity_of env text ;;
      lift (extract_style_features_of text) ;;
      lift (Raise AttributeError)
  end.


(** One value of the dictionary [list_documents] builds. *)
Definition document_summary (doc_id : string) (versions : list VersionSnapshot) : json :=
  JObj [("document_id", JStr doc_id);
        ("version_count", JNum (py_len versions));
        ("latest_version",
         match last versions with Some v => JStr (version_id v) | None => JNull end);
        ("created_at",
         match head versions with
         | Some v => JStr (isoformat (timestamp v))
         | None => JNull
         end);
        ("updated_at",
         match last versions with
         | Some v => JStr (isoformat (timestamp v))
         | None => JNull
         end)].

(** [list_documents]: the response body, the documents in the key order of
    the map. *)
Definition list_documents : M json :=
  fun st =>
    (Ret (JObj [("documents",
                 JArr (map (fun kv => document_summary kv.1 kv.2)
                           (map_to_list (documents st))))]), st).

Definition add_version (env : Env) (document_id : string) (data : json)
  : M response :=
  text ← lift (get_or data "text" (JStr ""));
  meta ← lift (get_or data "metadata" (JObj []));
  if negb (truthy text) then
    mret (Jsonify (JObj [("error", JStr "No text provided")]), 400%nat)
  else
    try_except
      (snapshot ← tracker_add_version env document_id text meta;
       mret (Jsonify (JObj
               [("version_id", JStr (version_id snapshot));
                ("timestamp", JStr (isoformat (timestamp snapshot)));
                ("authenticity_score", JNum (authenticity_score snapshot));
                ("style_features", features_data (style_features snapshot));
                ("metadata", metadata snapshot)]),
             201%nat))
      (fun e => mret (ErrorBody e, 500%nat)).

End Handlers.
End app.

(** ** The confusion matrix of [dataset_evaluator.py] *)

Module DatasetEvaluator.

(** One entry of [self.results], as [evaluate_on_dataset] builds it;
    [correct] is [None] for a text without a label. *)
Record evaluation := {
  index : Z;
  text_preview : string;
  true_label : string;
  predicted_label : string;
  authenticity_score : float;
  correct : option bool;
}.

Record confusion := {
  true_human_pred_human : nat;
  true_human_pred_ai : nat;
  true_ai_pred_human : nat;
  true_ai_pred_ai : nat;
}.

(** The body of [for result in self.results]. *)
Definition count_result (c : confusion) (result : evaluation) : confusion :=
  match correct result with
  | None => c
  | Some _ =>
      let true_ := true_label result in
      let pred := predicted_label result in
      if String.eqb true_ "human" && String.eqb pred "human" then
        {| true_human_pred_human := true_human_pred_human c + 1;
           true_human_pred_ai := true_human_pred_ai c;
           true_ai_pred_human := true_ai_pred_human c;
           true_ai_pred_ai := true_ai_pred_ai c |}
      else if String.eqb true_ "human" && String.eqb pred "ai" then
        {| true_human_pred_human := true_human_pred_human c;
           true_human_pred_ai := true_human_pred_ai c + 1;
           true_ai_pred_human := true_ai_pred_human c;
           true_ai_pred_ai := true_ai_pred_ai c |}
      else if String.eqb true_ "ai" && String.eqb pred "human" then
        {| true_human_pred_human := true_human_pred_human c;
           true_human_pred_ai := true_human_pred_ai c;
           true_ai_pred_human := true_ai_pred_human c + 1;
           true_ai_pred_ai := true_ai_pred_ai c |}
      else if String.eqb true_ "ai" && String.eqb pred "ai" then
        {| true_human_pred_human := true_human_pred_human c;
           true_human_pred_ai := true_human_pred_ai c;
           true_ai_pred_human := true_ai_pred_human c;
           true_ai_pred_ai := true_ai_pred_ai c + 1 |}
      else c
  end.

Definition _calculate_confusion_matrix (results : list evaluation) : confusion :=
  foldl count_result
        {| true_human_pred_human := 0; true_human_pred_ai := 0;
           true_ai_pred_human := 0; true_ai_pred_ai := 0 |}
        results.

End DatasetEvaluator.

(** * Notions the properties are stated with *)

(** The version list of a document: [self.documents.get(document_id, [])]. *)
Definition versions_of (st : state) (document_id : string) : list VersionSnapshot :=
  default [] (documents st !! document_id).

(** One [add_version] call with its surroundings. *)
Record call := {
  call_env : Env;
  call_document_id : string;
  call_text : string;
  call_timestamp : option datetime;
  call_metadata : option json;
}.

Definition run_call (isoformat : datetime -> string) (c : call) : M VersionSnapshot :=
  add_version isoformat (call_env c) (call_document_id c) (call_text c)
              (call_timestamp c) (call_metadata c).

(** A sequence of [add_version] calls, with what each returned. *)
Fixpoint run_calls (isoformat : datetime -> string) (cs : list call) (st : state)
  : list (result VersionSnapshot) * state :=
  match cs with
  | [] => ([], st)
  | c :: cs' =>
      let '(r, st') := run_call isoformat c st in
      let '(rs, st'') := run_calls isoformat cs' st' in
      (r :: rs, st'')
  end.

(** How many calls of [cs] are for [document_id]. *)
Definition calls_for (document_id : string) (cs : list call) : nat :=
  length (filter (fun c => call_document_id c = document_id) cs).

(** The feature dictionary of the empty text. *)
Definition zero_features : features :=
  [("avg_sentence_length", NInt 0); ("avg_word_length", NInt 0);
   ("lexical_diversity", NInt 0); ("punctuation_ratio", NInt 0);
   ("caps_ratio", NInt 0); ("word_count", NInt 0); ("sentence_count", NInt 0)].


(** The drift computation in the spec's words: the consecutive pairs of the
    version sequence, the mean absolute change over the feature keys present
    in both versions of a pair, and the report built from them. *)
Fixpoint consecutive {A} (l : list A) : list (A * A) :=
  match l with
  | a :: l' =>
      match l' with
      | b :: _ => (a, b) :: consecutive l'
      | [] => []
      end
  | [] => []
  end.

Definition shared_drifts (prev curr : features) : features :=
  omap (fun kv => c ← dict_get kv.1 curr; Some (kv.1, num_abs (num_sub c kv.2))) prev.

(** The mean of a list, [0] for the empty one. *)
Definition mean (l : list num) : num :=
  if nonempty l then num_div (py_sum l) (py_len l) else NInt 0.

Definition pair_auth_drift (prev curr : VersionSnapshot) : num :=
  num_abs (num_sub (authenticity_score curr) (authenticity_score prev)).

Definition pair_total_drift (prev curr : VersionSnapshot) : num :=
  num_div (num_add (mean (map snd (shared_drifts (style_features prev)
                                                 (style_features curr))))
                   (pair_auth_drift prev curr))
          (NInt 2).

Definition pair_point (prev curr : VersionSnapshot) : drift_point :=
  {| from_version := version_id prev;
     to_version := version_id curr;
     point_timestamp := timestamp curr;
     point_drift_score := pair_total_drift prev curr;
     auth_drift := pair_auth_drift prev curr;
     feature_drifts := shared_drifts (style_features prev) (style_features curr) |}.

(** A pair is a drift point when its total drift exceeds the threshold. *)
Definition is_drift (p : VersionSnapshot * VersionSnapshot) : bool :=
  num_gt (pair_total_drift p.1 p.2) (NFloat 0.15).

Definition expected_points (versions : list VersionSnapshot) : list drift_point :=
  map (fun p => pair_point p.1 p.2) (filter is_drift (consecutive versions)).

Definition expected_report (versions : list VersionSnapshot) : drift_report :=
  {| drift_detected := nonempty (expected_points versions);
     drift_score := mean (map (fun p => pair_total_drift p.1 p.2) (consecutive versions));
     details := None;
     drift_points := Some (expected_points versions);
     total_versions := Some (length versions);
     significant_changes := Some (length (expected_points versions)) |}.

(** The ints the arithmetic of the analysis is stated for: those a float
    holds exactly. A dictionary or a list of Python has fewer than 2^63
    entries, so that no sum of differences of such ints, and no quotient of
    one, leaves the range of binary64: on them no conversion and no division
    raises [OverflowError], and [float_of_Z] and [int_truediv] are what
    Python computes. A float is under no condition. *)
Definition fits (n : num) : Prop :=
  match n with
  | NInt z => (Z.abs z <= 2 ^ 53)%Z
  | NFloat _ => True
  end.

(** The score and the features of a snapshot fit. *)
Definition numbers_fit (v : VersionSnapshot) : Prop :=
  fits (authenticity_score v) /\ Forall (fun kv => fits kv.2) (style_features v).

(** A number that is not an infinity or a NaN. *)
Definition num_finite (n : num) : bool :=
  match n with NInt _ => true | NFloat f => is_finite f end.

(** The int [0] or the float [+0.0]. *)
Definition is_pos_zero (n : num) : Prop := n = NInt 0 \/ n = NFloat 0%float.

(** [self.documents[doc_id] = versions] *)
Definition store_entry (m : gmap string (list VersionSnapshot))
    (kv : string * list VersionSnapshot) := <[kv.1 := kv.2]> m.

(** What is in the store after the entries [done] of a record were read. *)
Definition store_rebuilt (fromisoformat : string -> option datetime)
    (m : gmap string (list VersionSnapshot)) (kv : string * json) :=
  match rebuild fromisoformat kv.2 with
  | Ret vs => <[kv.1 := vs]> m
  | Raise _ => m
  end.

(** At every point where the steps [ops] may be cut short, the history file
    is the one from before or the one the complete write leaves. *)
Definition crash_safe (ops : list fs_op) (d : gmap string file_content) : Prop :=
  forall k, let d' := fs_run (take k ops) d in
    d' !! history_path = d !! history_path
    \/ d' !! history_path = fs_run ops d !! history_path.

(** The write-then-swap discipline: the data goes to a temporary file, which
    is then renamed over the history file. *)
Definition write_then_swap (tmp : string) (data : json) : list fs_op :=
  [OpenW tmp; Dump tmp data; Rename tmp history_path].

(** A stored version, for the examples. *)
Definition demo_snapshot : VersionSnapshot :=
  {| version_id := "essay_v1";
     timestamp := 63840911400000000%Z;
     text := "";
     authenticity_score := NFloat 0.8;
     style_features := zero_features;
     metadata := JObj [] |}.

(** A record whose second document lacks its timestamp. *)
Definition malformed_record : json :=
  JObj [("essay", JArr [snapshot_data isoformat_naive demo_snapshot]);
        ("notes", JArr [JObj [("version_id", JStr "notes_v1")]])].

(** The version that follows [demo_snapshot], with a lower score. *)
Definition demo_snapshot_2 : VersionSnapshot :=
  {| version_id := "essay_v2";
     timestamp := 63840997800000000%Z;
     text := "";
     authenticity_score := NFloat 0.3;
     style_features := zero_features;
     metadata := JObj [] |}.

(** A store holding one document with two versions, nothing on disk. *)
Definition demo_state : state :=
  {| documents := {[ "essay" := [demo_snapshot; demo_snapshot_2] ]};
     disk := ∅;
     console := [] |}.

Definition empty_state : state := {| documents := ∅; disk := ∅; console := [] |}.

(** A scorer that answers 0.8, at a fixed time. *)
Definition demo_env : Env :=
  {| now := 63840911400000000%Z; client := Some (fun _ => Content "0.8") |}.

Definition demo_call (document_id : string) (ts : Z) : call :=
  {| call_env := demo_env; call_document_id := document_id; call_text := "";
     call_timestamp := Some ts; call_metadata := None |}.

(** ** Notions for the further properties *)

(** The features of a text made of white space only: the ratios over the
    character count are floats, the rest are the ints of the guards. *)
Definition blank_features : features :=
  [("avg_sentence_length", NInt 0); ("avg_word_length", NInt 0);
   ("lexical_diversity", NInt 0); ("punctuation_ratio", NFloat 0);
   ("caps_ratio", NFloat 0); ("word_count", NInt 0); ("sentence_count", NInt 0)].

(** [len(sentences)] of the extractor. *)
Definition sentence_count (cs : list ascii) : nat :=
  length (map strip (filter (fun s => nonempty (strip s)) (split_sentences cs [] false))).

(** A snapshot as [add_version] builds it: the seven feature keys, and a
    float score within [0, 1]. *)
Definition well_formed (v : VersionSnapshot) : Prop :=
  (style_features v).*1 = zero_features.*1
  /\ exists s, authenticity_score v = NFloat s
               /\ (0 <=? s)%float = true /\ (s <=? 1)%float = true.

(** The ids of [vs] are those of the first [length vs] versions of
    [document_id], in some order. *)
Definition numbered (document_id : string) (vs : list VersionSnapshot) : Prop :=
  map version_id vs
  ≡ₚ map (fun n => document_id +:+ "_v" +:+ str n) (seq 1 (length vs)).

(** [isoformat] and [fromisoformat] agree on the timestamps of the store. *)
Definition timestamps_readable (isoformat : datetime -> string)
    (fromisoformat : string -> option datetime)
    (docs : gmap string (list VersionSnapshot)) : Prop :=
  forall d vs v, docs !! d = Some vs -> v ∈ vs ->
    fromisoformat (isoformat (timestamp v)) = Some (timestamp v).

(** A drift point joins two neighbours of [versions] and is above the
    threshold. *)
Definition joins_neighbours (versions : list VersionSnapshot) (p : drift_point) : Prop :=
  exists i prev curr,
    versions !! i = Some prev /\ versions !! S i = Some curr
    /\ from_version p = version_id prev /\ to_version p = version_id curr
    /\ point_timestamp p = timestamp curr
    /\ num_gt (point_drift_score p) (NFloat 0.15) = true.


(** The answer of the handlers to a request without text. *)
Definition no_text_provided : response :=
  (Jsonify (JObj [("error", JStr "No text provided")]), 400%nat).

(** The entry [_save_history] writes for [v], with the member [key] taken
    out. *)
Definition entry_without (isoformat : datetime -> string) (key : string)
    (v : VersionSnapshot) : json :=
  match snapshot_data isoformat v with
  | JObj members => JObj (List.filter (fun kv => negb (String.eqb kv.1 key)) members)
  | j => j
  end.

(** The keys [_load_history] subscripts. *)
Definition required_keys : list string :=
  ["version_id"; "timestamp"; "text"; "authenticity_score"; "style_features"].

(** The results that were compared with a label. *)
Definition evaluated (results : list DatasetEvaluator.evaluation)
  : list DatasetEvaluator.evaluation :=
  filter (fun r => is_Some (DatasetEvaluator.correct r)) results.

Definition is_label (s : string) : Prop := s = "human" \/ s = "ai".

(** A result marked as [evaluate_on_dataset] marks it: correct exactly when
    the two labels agree. *)
Definition marked (r : DatasetEvaluator.evaluation) : Prop :=
  is_label (DatasetEvaluator.true_label r)
  /\ is_label (DatasetEvaluator.predicted_label r)
  /\ (is_Some (DatasetEvaluator.correct r) ->
      DatasetEvaluator.correct r
      = Some (String.eqb (DatasetEvaluator.true_label r)
                         (DatasetEvaluator.predicted_label r))).

(** The sum of the four cells, and of the two where the labels agree. *)
Definition cells (c : DatasetEvaluator.confusion) : nat :=
  DatasetEvaluator.true_human_pred_human c + DatasetEvaluator.true_human_pred_ai c
  + DatasetEvaluator.true_ai_pred_human c + DatasetEvaluator.true_ai_pred_ai c.

Definition diagonal (c : DatasetEvaluator.confusion) : nat :=
  DatasetEvaluator.true_human_pred_human c + DatasetEvaluator.true_ai_pred_ai c.

(** [demo_snapshot] once more, as a second version a day later. *)
Definition demo_snapshot_again : VersionSnapshot :=
  {| version_id := "essay_v2";
     timestamp := 63840997800000000%Z;
     text := "";
     authenticity_score := NFloat 0.8;
     style_features := zero_features;
     metadata := JObj [] |}.

(** A document whose two versions do not differ. *)
Definition steady_state : state :=
  {| documents := {[ "essay" := [demo_snapshot; demo_snapshot_again] ]};
     disk := ∅;
     console := [] |}.

(** A tracker that has nothing in memory, over the file [demo_state] saves. *)
Definition saved_state : state :=
  {| documents := ∅;
     disk := {[ history_path :=
                  Doc (history_data isoformat_naive (documents demo_state)) ]};
     console := [] |}.

(** A tracker over the malformed record. *)
Definition malformed_state : state :=
  {| documents := ∅;
     disk := {[ history_path := Doc malformed_record ]};
     console := [] |}.

(** Two results: a human text taken for human, an AI text taken for human. *)
Definition demo_results : list DatasetEvaluator.evaluation :=
  [ {| DatasetEvaluator.index := 0; DatasetEvaluator.text_preview := "A short text";
       DatasetEvaluator.true_label := "human";
       DatasetEvaluator.predicted_label := "human";
       DatasetEvaluator.authenticity_score := 0.7;
       DatasetEvaluator.correct := Some true |};
    {| DatasetEvaluator.index := 1; DatasetEvaluator.text_preview := "Another text";
       DatasetEvaluator.true_label := "ai";
       DatasetEvaluator.predicted_label := "human";
       DatasetEvaluator.authenticity_score := 0.7;
       DatasetEvaluator.correct := Some false |} ].

(** * Properties *)

(** ** Binary64 arithmetic

    Facts about [SpecFloat]'s rounding that the drift computation needs:
    converting a positive integer gives a positive float, [x - x] is [+0],
    and halving is exact away from the subnormal range. *)

Module Binary64.
Local Open Scope Z_scope.

Lemma digits2_pos_bounds p :
  2 ^ (Zpos (digits2_pos p) - 1) <= Zpos p < 2 ^ Zpos (digits2_pos p).
Proof.
  induction p as [p IH|p IH|]; cbn [digits2_pos]; [| |cbn; lia].
  all: rewrite Pos2Z.inj_succ.
  all: replace (Z.succ (Zpos (digits2_pos p)) - 1)
         with (Z.succ (Zpos (digits2_pos p) - 1)) by lia.
  all: replace (Z.succ (Zpos (digits2_pos p)))
         with (Z.succ (Z.succ (Zpos (digits2_pos p) - 1))) by lia.
  all: replace (Zpos (digits2_pos p))
         with (Z.succ (Zpos (digits2_pos p) - 1)) in IH at 2 by lia.
  all: rewrite ?Z.pow_succ_r in * by lia.
  all: lia.
Qed.

Lemma Zdigits2_bounds m : 0 < m -> 2 ^ (Zdigits2 m - 1) <= m < 2 ^ Zdigits2 m.
Proof. destruct m as [|p|p]; try lia. intros _. apply digits2_pos_bounds. Qed.

Lemma Zdigits2_pos m : 0 < m -> 0 < Zdigits2 m.
Proof. destruct m; simpl; lia. Qed.

Lemma Zdigits2_unique m d : 0 < m -> 2 ^ (d - 1) <= m < 2 ^ d -> Zdigits2 m = d.
Proof.
  intros Hm [Hlo Hhi].
  pose proof (Zdigits2_bounds m Hm) as [Dlo Dhi].
  pose proof (Zdigits2_pos m Hm) as HD.
  assert (0 < d).
  { destruct (Z_lt_le_dec 0 d) as [|Hd]; [easy|].
    destruct (Z.eq_dec d 0) as [->|]; [simpl in Hhi; lia|].
    rewrite Z.pow_neg_r in Hhi by lia. lia. }
  destruct (Z.lt_trichotomy (Zdigits2 m) d) as [Hlt|[Heq|Hgt]]; [|easy|].
  - assert (2 ^ Zdigits2 m <= 2 ^ (d - 1)) by (apply Z.pow_le_mono_r; lia). lia.
  - assert (2 ^ d <= 2 ^ (Zdigits2 m - 1)) by (apply Z.pow_le_mono_r; lia). lia.
Qed.

Lemma Zdigits2_mono m n : 0 < m -> m <= n -> Zdigits2 m <= Zdigits2 n.
Proof.
  intros Hm Hmn.
  pose proof (Zdigits2_bounds m Hm) as [Dlo _].
  pose proof (Zdigits2_bounds n ltac:(lia)) as [_ Ehi].
  destruct (Z_lt_le_dec (Zdigits2 n) (Zdigits2 m)) as [Hlt|]; [|easy].
  assert (2 ^ Zdigits2 n <= 2 ^ (Zdigits2 m - 1)) by (apply Z.pow_le_mono_r; lia).
  lia.
Qed.

Lemma Zdigits2_succ m : 0 < m -> Zdigits2 (m + 1) <= Zdigits2 m + 1.
Proof.
  intros Hm.
  pose proof (Zdigits2_bounds m Hm) as [_ Dhi].
  pose proof (Zdigits2_bounds (m + 1) ltac:(lia)) as [Elo _].
  pose proof (Zdigits2_pos m Hm).
  destruct (Z_lt_le_dec (Zdigits2 m + 1) (Zdigits2 (m + 1))) as [Hlt|]; [|easy].
  assert (2 ^ (Zdigits2 m + 1) <= 2 ^ (Zdigits2 (m + 1) - 1))
    by (apply Z.pow_le_mono_r; lia).
  rewrite Z.pow_add_r in * by lia. lia.
Qed.

Lemma Zdigits2_shiftr m k :
  0 < m -> 0 <= k < Zdigits2 m ->
  0 < m / 2 ^ k /\ Zdigits2 (m / 2 ^ k) = Zdigits2 m - k.
Proof.
  intros Hm Hk.
  pose proof (Zdigits2_bounds m Hm) as [Dlo Dhi].
  assert (Hp : 0 < 2 ^ k) by (apply Z.pow_pos_nonneg; lia).
  assert (Hlo : 2 ^ (Zdigits2 m - k - 1) <= m / 2 ^ k).
  { apply Z.div_le_lower_bound; [easy|].
    rewrite <- Z.pow_add_r by lia.
    replace (k + (Zdigits2 m - k - 1)) with (Zdigits2 m - 1) by lia. easy. }
  assert (Hhi : m / 2 ^ k < 2 ^ (Zdigits2 m - k)).
  { apply Z.div_lt_upper_bound; [easy|].
    rewrite <- Z.pow_add_r by lia.
    replace (k + (Zdigits2 m - k)) with (Zdigits2 m) by lia. easy. }
  assert (0 < 2 ^ (Zdigits2 m - k - 1)) by (apply Z.pow_pos_nonneg; lia).
  split; [lia|]. apply Zdigits2_unique; [lia|]. split; easy.
Qed.

Lemma shr_1_m r : 0 <= shr_m r -> shr_m (shr_1 r) = shr_m r / 2.
Proof.
  destruct r as [m r s]; cbn [shr_m]. intros Hm.
  destruct m as [|[p|p|]|p]; cbn; try lia; try reflexivity.
  - rewrite (Pos2Z.inj_xI p). apply Z.div_unique with 1; lia.
  - rewrite (Pos2Z.inj_xO p). apply Z.div_unique with 0; lia.
Qed.

Lemma iter_shr_1_m p : forall r, 0 <= shr_m r ->
  shr_m (SpecFloat.iter_pos shr_1 p r) = shr_m r / 2 ^ Zpos p.
Proof.
  induction p as [p IH|p IH|]; intros r Hr; cbn [SpecFloat.iter_pos].
  - assert (H1 : 0 <= shr_m (shr_1 r))
      by (rewrite shr_1_m by easy; apply Z.div_pos; lia).
    assert (H2 : 0 <= shr_m (SpecFloat.iter_pos shr_1 p (shr_1 r))).
    { rewrite IH by easy. apply Z.div_pos; [easy|]. apply Z.pow_pos_nonneg; lia. }
    rewrite IH, IH, shr_1_m by easy.
    rewrite !Z.div_div by (try apply Z.pow_pos_nonneg; lia).
    f_equal. rewrite (Pos2Z.inj_xI p).
    replace (2 * Zpos p + 1) with (1 + Zpos p + Zpos p) by lia.
    rewrite !Z.pow_add_r by lia. lia.
  - assert (H2 : 0 <= shr_m (SpecFloat.iter_pos shr_1 p r)).
    { rewrite IH by easy. apply Z.div_pos; [easy|]. apply Z.pow_pos_nonneg; lia. }
    rewrite IH, IH by easy.
    rewrite !Z.div_div by (try apply Z.pow_pos_nonneg; lia).
    f_equal. rewrite (Pos2Z.inj_xO p).
    replace (2 * Zpos p) with (Zpos p + Zpos p) by lia.
    rewrite !Z.pow_add_r by lia. lia.
  - rewrite shr_1_m by easy. reflexivity.
Qed.

Lemma shr_record_of_loc_m m l : shr_m (shr_record_of_loc m l) = m.
Proof. destruct l as [|[]]; reflexivity. Qed.

Lemma fexp64 e : fexp prec emax e = Z.max (e - 53) (-1074).
Proof. reflexivity. Qed.

Lemma shr_fexp_pos m e l :
  0 < m -> -1074 < Zdigits2 m + e ->
  let '(r, e') := shr_fexp prec emax m e l in
  0 < shr_m r /\ Zdigits2 (shr_m r) + e' = Zdigits2 m + e
  /\ e' = Z.max e (fexp prec emax (Zdigits2 m + e)).
Proof.
  intros Hm HS. unfold shr_fexp, shr.
  pose proof (Zdigits2_pos m Hm) as Hd.
  rewrite fexp64.
  destruct (Z.max (Zdigits2 m + e - 53) (-1074) - e) as [|k|k] eqn:Hk.
  - rewrite shr_record_of_loc_m. repeat split; lia.
  - rewrite iter_shr_1_m by (rewrite shr_record_of_loc_m; lia).
    rewrite shr_record_of_loc_m.
    destruct (Zdigits2_shiftr m (Zpos k) Hm ltac:(lia)) as [Hq Hdq].
    rewrite Hdq. repeat split; lia.
  - rewrite shr_record_of_loc_m. repeat split; lia.
Qed.

Lemma round_nearest_even_bounds m l : m <= round_nearest_even m l <= m + 1.
Proof.
  unfold round_nearest_even. destruct l as [|[]]; try destruct (Z.even m); lia.
Qed.


(** Rounding a positive significand whose exponent is not above the format's
    gives a valid float of the requested sign, never a zero or a NaN. *)
Lemma binary_round_aux_pos sx m e l :
  0 < m -> -1074 < Zdigits2 m + e -> e <= fexp prec emax (Zdigits2 m + e) ->
  let x := binary_round_aux prec emax sx m e l in
  valid_binary x = true /\
  ((exists m' e', x = S754_finite sx m' e') \/ x = S754_infinity sx).
Proof.
  intros Hm HS He. unfold binary_round_aux.
  pose proof (shr_fexp_pos m e l Hm HS) as H1.
  destruct (shr_fexp prec emax m e l) as [r1 e1]. destruct H1 as (Hr1 & Hd1 & He1).
  pose proof (round_nearest_even_bounds (shr_m r1) (loc_of_shr_record r1)) as Hrne.
  set (m2 := round_nearest_even (shr_m r1) (loc_of_shr_record r1)) in *.
  assert (Hm2 : 0 < m2) by lia.
  assert (Hd2 : Zdigits2 (shr_m r1) <= Zdigits2 m2 <= Zdigits2 (shr_m r1) + 1).
  { split; [apply Zdigits2_mono; lia|].
    destruct (Z.eq_dec m2 (shr_m r1)) as [->|]; [lia|].
    replace m2 with (shr_m r1 + 1) by lia. now apply Zdigits2_succ. }
  pose proof (shr_fexp_pos m2 e1 loc_Exact Hm2 ltac:(lia)) as H2.
  destruct (shr_fexp prec emax m2 e1 loc_Exact) as [r3 e3].
  destruct H2 as (Hr3 & Hd3 & He3).
  rewrite fexp64 in *.
  destruct (shr_m r3) as [|m3|m3] eqn:Hm3; try lia.
  destruct (Z.leb_spec e3 (emax - prec)) as [Hle|Hgt].
  - split; [|left; eauto].
    cbn [SpecFloat.valid_binary]. unfold bounded, canonical_mantissa.
    apply andb_true_intro; split; [|now apply Z.leb_le].
    apply Z.eqb_eq. rewrite fexp64. cbn [Zdigits2] in Hd3. lia.
  - split; [reflexivity|now right].
Qed.

Lemma digits2_pos_iter_xO d p :
  Zpos (digits2_pos (Pos.iter xO p d)) = Zpos (digits2_pos p) + Zpos d.
Proof.
  revert p. induction d using Pos.peano_ind; intros p.
  - cbn. lia.
  - rewrite Pos.iter_succ. cbn [digits2_pos]. rewrite Pos2Z.inj_succ, IHd. lia.
Qed.

Lemma binary_round_pos sx p e :
  -1074 < Zpos (digits2_pos p) + e ->
  let x := binary_round prec emax sx p e in
  valid_binary x = true /\
  ((exists m' e', x = S754_finite sx m' e') \/ x = S754_infinity sx).
Proof.
  intros HS. unfold binary_round, shl_align. rewrite fexp64.
  destruct (Z.max (Zpos (digits2_pos p) + e - 53) (-1074) - e) as [|k|k] eqn:Hk.
  - apply binary_round_aux_pos; cbn [Zdigits2]; rewrite ?fexp64; lia.
  - apply binary_round_aux_pos; cbn [Zdigits2]; rewrite ?fexp64; lia.
  - apply binary_round_aux_pos; cbn [Zdigits2];
      rewrite ?digits2_pos_iter_xO, ?fexp64; lia.
Qed.

Lemma Prim2SF_inj x y : Prim2SF x = Prim2SF y -> x = y.
Proof.
  intros H. rewrite <- (SF2Prim_Prim2SF x), <- (SF2Prim_Prim2SF y). now rewrite H.
Qed.


Lemma float_of_Z_positive p : sf_positive (Prim2SF (float_of_Z (Zpos p))).
Proof.
  unfold float_of_Z. cbn [binary_normalize].
  destruct (binary_round_pos false p 0 ltac:(lia)) as [Hv Hx].
  rewrite Prim2SF_SF2Prim by exact Hv. exact Hx.
Qed.

Lemma zero_div_positive y : sf_positive (Prim2SF y) -> (0 / y)%float = 0%float.
Proof.
  intros Hy. apply Prim2SF_inj. rewrite div_spec.
  change (Prim2SF 0) with (S754_zero false).
  destruct Hy as [(m & e & ->)| ->]; reflexivity.
Qed.


Lemma float_sub_diag x : is_finite x = true -> (x - x)%float = 0%float.
Proof.
  unfold is_finite. intros Hx. apply Prim2SF_inj. rewrite sub_spec.
  change (Prim2SF 0) with (S754_zero false).
  destruct (Prim2SF x) as [[]|s| |s m e]; try discriminate; try reflexivity.
  unfold SF64sub, SFsub. rewrite Z.sub_diag. reflexivity.
Qed.




End Binary64.

(** ** Numbers *)

Lemma truediv_nonzero a b :
  num_is_zero b = false -> truediv a b = Ret (num_div a b).
Proof. intros H. unfold truediv. now rewrite H. Qed.

Lemma py_len_nonzero {A} (l : list A) : l <> [] -> num_is_zero (py_len l) = false.
Proof. destruct l; [congruence|]. intros _. apply Z.eqb_neq. cbn. lia. Qed.

(** ** The state monad *)

Lemma bind_ret {A B} (m : M A) (f : A -> M B) st a st' :
  m st = (Ret a, st') -> (m ≫= f) st = f a st'.
Proof. intros H. unfold mbind, M_bind. now rewrite H. Qed.

Lemma bind_raise {A B} (m : M A) (f : A -> M B) st e st' :
  m st = (Raise e, st') -> (m ≫= f) st = (Raise e, st').
Proof. intros H. unfold mbind, M_bind. now rewrite H. Qed.

(** ** Feature extraction never divides by zero *)

Lemma ratio_returns a b : exists n, ratio a b = Ret n.
Proof.
  unfold ratio, num_gt. destruct (Z.ltb_spec 0 b) as [Hb|Hb]; [|eexists; reflexivity].
  rewrite truediv_nonzero; [eauto|]. apply Z.eqb_neq. lia.
Qed.

Lemma extract_returns text : exists f, _extract_style_features text = Ret f.
Proof.
  unfold _extract_style_features.
  repeat match goal with
  | |- context [ratio ?a ?b] =>
      let n := fresh "n" in let E := fresh "E" in
      destruct (ratio_returns a b) as [n E]; rewrite E; clear E;
      cbn [mbind result_bind]
  end.
  eexists. reflexivity.
Qed.

Lemma analyze_authenticity_frame env text st :
  exists score st1,
    _analyze_authenticity env text st = (Ret score, st1)
    /\ documents st1 = documents st /\ disk st1 = disk st.
Proof.
  unfold _analyze_authenticity.
  destruct (client env) as [create|]; [|repeat eexists].
  destruct (create _) as [e|c]; [repeat eexists|].
  destruct (search_number c) as [run|]; [|repeat eexists].
  destruct (float_of_digits run); repeat eexists.
Qed.

Section Properties.
Context (isoformat : datetime -> string) (fromisoformat : string -> option datetime)
        (np_var : list num -> float).

Lemma documents_getitem_eq d st :
  exists st', documents_getitem d st = (Ret (versions_of st d), st')
    /\ documents st' = <[d := versions_of st d]> (documents st)
    /\ disk st' = disk st /\ console st' = console st.
Proof.
  unfold documents_getitem, versions_of.
  destruct (documents st !! d) as [vs|] eqn:E; cbn.
  - exists st. repeat split. now rewrite insert_id.
  - eexists. repeat split.
Qed.

Lemma add_version_spec env d text ts meta st :
  exists score feats st1,
    _analyze_authenticity env text st = (Ret score, st1)
    /\ documents st1 = documents st /\ disk st1 = disk st
    /\ _extract_style_features text = Ret feats
    /\ let snap :=
         {| version_id := d +:+ "_v" +:+ str (length (versions_of st d) + 1);
            timestamp := default (now env) ts;
            text := text;
            authenticity_score := score;
            style_features := feats;
            metadata := metadata_or_empty meta |} in
       let docs := <[d := sort_by_timestamp (versions_of st d ++ [snap])]> (documents st) in
       add_version isoformat env d text ts meta st
       = (Ret snap, {| documents := docs;
                       disk := <[history_path := Doc (history_data isoformat docs)]> (disk st);
                       console := console st1 |}).
Proof.
  destruct (analyze_authenticity_frame env text st) as (score & st1 & Ha & Hd1 & Hk1).
  destruct (extract_returns text) as [feats Hf].
  exists score, feats, st1. repeat (split; [assumption|]).
  intros snap docs. unfold add_version.
  rewrite (bind_ret _ _ _ _ _ Ha). rewrite Hf.
  rewrite (bind_ret (lift (Ret feats)) _ st1 feats st1 eq_refl).
  destruct (documents_getitem_eq d st1) as (st2 & Hg & Hd2 & Hk2 & Hc2).
  assert (Hv1 : versions_of st1 d = versions_of st d) by (unfold versions_of; now rewrite Hd1).
  rewrite (bind_ret _ _ _ _ _ Hg). rewrite Hv1. fold snap.
  assert (Hv2 : versions_of st2 d = versions_of st d).
  { unfold versions_of. now rewrite Hd2, lookup_insert_eq. }
  destruct (documents_getitem_eq d st2) as (st3 & Hg3 & Hd3 & Hk3 & Hc3).
  unfold documents_append at 1.
  erewrite bind_ret; [|erewrite bind_ret; [|exact Hg3]; reflexivity].
  unfold documents_sort.
  erewrite bind_ret; [|erewrite bind_ret; [|unfold documents_getitem; cbn; rewrite lookup_insert_eq; reflexivity]; reflexivity].
  cbn. unfold set_disk, set_documents. cbn.
  rewrite Hv2, Hd3, Hv2, Hd2, Hv1, Hd1, !insert_insert_eq. fold docs.
  unfold mbind, M_bind, _save_history, mret, M_ret, set_disk, fs_run. cbn.
  rewrite Hk3, Hk2, Hk1, Hc3, Hc2, insert_insert_eq. reflexivity.
Qed.


(** ** Sorting by timestamp *)

Lemma insert_by_timestamp_length v l :
  length (insert_by_timestamp v l) = S (length l).
Proof.
  induction l as [|w l IH]; cbn; [reflexivity|].
  destruct (timestamp v <=? timestamp w)%Z; cbn; [reflexivity|]. now rewrite IH.
Qed.

Lemma sort_by_timestamp_cons v l :
  sort_by_timestamp (v :: l) = insert_by_timestamp v (sort_by_timestamp l).
Proof. reflexivity. Qed.

Lemma sort_by_timestamp_length l : length (sort_by_timestamp l) = length l.
Proof.
  induction l as [|v l IH]; [reflexivity|].
  now rewrite sort_by_timestamp_cons, insert_by_timestamp_length, IH.
Qed.

Lemma insert_by_timestamp_Forall (P : Z -> Prop) v l :
  P (timestamp v) -> Forall P (map timestamp l) ->
  Forall P (map timestamp (insert_by_timestamp v l)).
Proof.
  intros Hv. induction l as [|w l IH]; cbn; intros Hl.
  - constructor; [assumption|constructor].
  - destruct (timestamp v <=? timestamp w)%Z; cbn.
    + constructor; assumption.
    + inversion Hl; subst. constructor; auto.
Qed.

Lemma insert_by_timestamp_sorted v l :
  StronglySorted Z.le (map timestamp l) ->
  StronglySorted Z.le (map timestamp (insert_by_timestamp v l)).
Proof.
  induction l as [|w l IH]; cbn; intros Hs.
  - repeat constructor.
  - inversion Hs as [|? ? Hs' Hall]; subst.
    destruct (Z.leb_spec (timestamp v) (timestamp w)) as [Hle|Hgt]; cbn.
    + constructor; [assumption|]. constructor; [assumption|].
      eapply Forall_impl; [exact Hall|]. cbn. intros; lia.
    + constructor; [auto|].
      apply insert_by_timestamp_Forall; [lia|assumption].
Qed.

Lemma sort_by_timestamp_sorted l :
  StronglySorted Z.le (map timestamp (sort_by_timestamp l)).
Proof.
  induction l as [|v l IH]; [constructor|].
  rewrite sort_by_timestamp_cons. now apply insert_by_timestamp_sorted.
Qed.

Lemma versions_of_add_version env d text ts meta st d' :
  exists snap,
    (add_version isoformat env d text ts meta st).1 = Ret snap
    /\ version_id snap = d +:+ "_v" +:+ str (length (versions_of st d) + 1)
    /\ timestamp snap = default (now env) ts
    /\ versions_of (add_version isoformat env d text ts meta st).2 d' =
       if decide (d = d') then sort_by_timestamp (versions_of st d ++ [snap])
       else versions_of st d'.
Proof.
  destruct (add_version_spec env d text ts meta st)
    as (score & feats & st1 & _ & _ & _ & _ & Hadd).
  cbv zeta in Hadd. rewrite Hadd. eexists. split; [reflexivity|].
  split; [reflexivity|]. split; [reflexivity|].
  unfold versions_of at 1. cbn [snd documents].
  rewrite lookup_insert. destruct (decide (d = d')); reflexivity.
Qed.

(** C2: after every [add_version] call the document's version list, as
    [get_versions] returns it, is in ascending timestamp order; in
    particular three calls on a fresh document with timestamps T3, T1, T2
    (T1 <= T2 <= T3) leave the versions in the order T1, T2, T3. The lists
    of the other documents are not touched. *)
Theorem add_version_sorted env d text ts meta st :
  let st' := (add_version isoformat env d text ts meta st).2 in
  StronglySorted Z.le (map timestamp (versions_of st' d))
  /\ get_versions isoformat d st'
     = (Ret (JObj [("document_id", JStr d);
                   ("versions", JArr (map (snapshot_data isoformat) (versions_of st' d)))]),
        st')
  /\ (forall d', d' <> d -> versions_of st' d' = versions_of st d')
  /\ forall T1 T2 T3 e1 e2 e3 x1 x2 x3 m1 m2 m3,
       (T1 <= T2 <= T3)%Z -> versions_of st d = [] ->
       let s1 := (add_version isoformat e1 d x1 (Some T3) m1 st).2 in
       let s2 := (add_version isoformat e2 d x2 (Some T1) m2 s1).2 in
       let s3 := (add_version isoformat e3 d x3 (Some T2) m3 s2).2 in
       map timestamp (versions_of s3 d) = [T1; T2; T3].
Proof.
  intros st'. split; [|split; [|split]].
  - subst st'.
    destruct (versions_of_add_version env d text ts meta st d) as (snap & _ & _ & _ & ->).
    rewrite decide_True by reflexivity. apply sort_by_timestamp_sorted.
  - reflexivity.
  - intros d' Hd'. subst st'.
    destruct (versions_of_add_version env d text ts meta st d') as (snap & _ & _ & _ & ->).
    now rewrite decide_False by congruence.
  - intros T1 T2 T3 e1 e2 e3 x1 x2 x3 m1 m2 m3 HT Hfresh s1 s2 s3.
    destruct (versions_of_add_version e1 d x1 (Some T3) m1 st d) as (v1 & _ & _ & Ht1 & H1).
    fold s1 in H1. rewrite decide_True, Hfresh in H1 by reflexivity.
    destruct (versions_of_add_version e2 d x2 (Some T1) m2 s1 d) as (v2 & _ & _ & Ht2 & H2).
    fold s2 in H2. rewrite decide_True, H1 in H2 by reflexivity.
    destruct (versions_of_add_version e3 d x3 (Some T2) m3 s2 d) as (v3 & _ & _ & Ht3 & H3).
    fold s3 in H3. rewrite decide_True, H2 in H3 by reflexivity.
    rewrite H3. clear H1 H2 H3. cbn in Ht1, Ht2, Ht3.
    unfold sort_by_timestamp.
    repeat first
      [ progress cbn [foldr app insert_by_timestamp map]
      | progress rewrite ?Ht1, ?Ht2, ?Ht3
      | match goal with
        | |- context [(?a <=? ?b)%Z] => destruct (Z.leb_spec a b)
        end ].
    all: try (exfalso; lia).
    all: repeat (f_equal; try lia).
Qed.


(** ** Version numbering *)

Lemma run_calls_version_id cs : forall st i c,
  cs !! i = Some c ->
  exists snap,
    (run_calls isoformat cs st).1 !! i = Some (Ret snap)
    /\ version_id snap =
       call_document_id c +:+ "_v"
       +:+ str (length (versions_of st (call_document_id c))
                + calls_for (call_document_id c) (take i cs) + 1).
Proof.
  induction cs as [|c0 cs IH]; intros st i c Hi; [discriminate|].
  cbn [run_calls]. unfold run_call at 1.
  destruct (versions_of_add_version (call_env c0) (call_document_id c0) (call_text c0)
              (call_timestamp c0) (call_metadata c0) st (call_document_id c))
    as (s0 & Hr & Hid & _ & Hvs).
  destruct (add_version isoformat _ _ _ _ _ st) as [r st'] eqn:Hadd.
  cbn [fst snd] in Hr, Hvs. subst r.
  destruct i as [|i].
  - injection Hi as ->.
    destruct (run_calls isoformat cs st') as [rs st''].
    exists s0. split; [reflexivity|].
    rewrite Hid. unfold calls_for. cbn. now rewrite Nat.add_0_r.
  - cbn in Hi. destruct (IH st' i c Hi) as (snap & Hl & Hv).
    destruct (run_calls isoformat cs st') as [rs st''].
    exists snap. split; [exact Hl|].
    rewrite Hv. do 3 f_equal. rewrite Hvs.
    unfold calls_for. cbn [take filter]. rewrite filter_cons.
    destruct (decide (call_document_id c0 = call_document_id c)) as [He|Hne].
    + rewrite sort_by_timestamp_length, length_app, He. cbn. lia.
    + cbn. lia.
Qed.

(** C3: the n-th [add_version] call for a document (fresh at the start,
    whatever the timestamps and whatever calls for other documents come in
    between) returns the snapshot whose [version_id] is
    ["{document_id}_v{n}"]. *)
Theorem add_version_numbering cs st d i c :
  versions_of st d = [] ->
  cs !! i = Some c ->
  call_document_id c = d ->
  exists snap,
    (run_calls isoformat cs st).1 !! i = Some (Ret snap)
    /\ version_id snap = d +:+ "_v" +:+ str (S (calls_for d (take i cs))).
Proof.
  intros Hfresh Hi Hd.
  destruct (run_calls_version_id cs st i c Hi) as (snap & Hl & Hv).
  exists snap. split; [exact Hl|].
  rewrite Hv, Hd, Hfresh. do 3 f_equal. cbn. lia.
Qed.

(** ** Empty text *)

(** C7: on the empty string the extractor returns every feature as [0],
    raising nothing, and [add_version] on empty text returns a snapshot
    carrying those features. *)
Theorem empty_text_features env d ts meta st :
  _extract_style_features "" = Ret zero_features
  /\ exists snap st',
       add_version isoformat env d "" ts meta st = (Ret snap, st')
       /\ style_features snap = zero_features.
Proof.
  split; [reflexivity|].
  destruct (add_version_spec env d "" ts meta st)
    as (score & feats & st1 & _ & _ & _ & Hf & Hadd).
  cbv zeta in Hadd. rewrite Hadd. do 2 eexists. split; [reflexivity|].
  cbn [style_features]. change (_extract_style_features "") with (Ret zero_features) in Hf.
  congruence.
Qed.

(** ** Dictionaries *)

Lemma dict_get_app_fresh {A} k (v : A) done todo :
  k ∉ done.*1 -> dict_get k (done ++ (k, v) :: todo) = Some v.
Proof.
  induction done as [|[k' v'] done IH]; cbn; intros Hk.
  - now rewrite String.eqb_refl.
  - apply not_elem_of_cons in Hk as [Hne Hk].
    destruct (String.eqb_spec k k'); [congruence|]. auto.
Qed.

Lemma dict_set_fresh {A} k (v : A) acc :
  k ∉ acc.*1 -> dict_set k v acc = acc ++ [(k, v)].
Proof.
  induction acc as [|[k' v'] acc IH]; cbn; intros Hk; [reflexivity|].
  apply not_elem_of_cons in Hk as [Hne Hk].
  destruct (String.eqb_spec k k'); [congruence|]. now rewrite IH.
Qed.

(** ** The drift loop *)

Lemma feature_drifts_step_eq prev curr acc k :
  feature_drifts_step prev curr acc k =
  match dict_get k curr with
  | Some c =>
      match dict_get k prev with
      | Some p => Ret (dict_set k (num_abs (num_sub c p)) acc)
      | None => Raise (KeyError k)
      end
  | None => Ret acc
  end.
Proof.
  unfold feature_drifts_step, dict_mem, getitem.
  destruct (dict_get k curr); [|reflexivity]. destruct (dict_get k prev); reflexivity.
Qed.

Lemma shared_drifts_cons k pv todo curr :
  shared_drifts ((k, pv) :: todo) curr =
  match dict_get k curr with
  | Some c => (k, num_abs (num_sub c pv)) :: shared_drifts todo curr
  | None => shared_drifts todo curr
  end.
Proof. unfold shared_drifts. cbn. destruct (dict_get k curr); reflexivity. Qed.

Lemma feature_loop prev curr : forall todo done acc,
  prev = done ++ todo -> NoDup prev.*1 -> acc.*1 ⊆ done.*1 ->
  foldM (feature_drifts_step prev curr) todo.*1 acc
  = Ret (acc ++ shared_drifts todo curr).
Proof.
  induction todo as [|[k pv] todo IH]; intros done acc Hprev Hnd Hacc.
  - cbn. now rewrite app_nil_r.
  - assert (Hk : k ∉ done.*1).
    { rewrite Hprev, fmap_app in Hnd. apply NoDup_app in Hnd as (_ & Hd & _).
      intros Hin. apply (Hd k Hin). cbn. left. }
    assert (Hprev' : prev = (done ++ [(k, pv)]) ++ todo) by now rewrite <- app_assoc.
    cbn [fmap list_fmap foldM fst]. rewrite feature_drifts_step_eq, shared_drifts_cons.
    assert (Hgp : dict_get k prev = Some pv)
      by (rewrite Hprev; now apply dict_get_app_fresh).
    rewrite Hgp.
    destruct (dict_get k curr) as [c|] eqn:Hc; cbn [mbind result_bind].
    + rewrite dict_set_fresh by (intros Hin; apply Hk, Hacc, Hin).
      rewrite (IH (done ++ [(k, pv)]) _ Hprev' Hnd).
      * now rewrite <- app_assoc.
      * rewrite !fmap_app. cbn. intros x Hx. apply elem_of_app in Hx as [Hx|Hx].
        -- apply elem_of_app. left. auto.
        -- apply elem_of_app. now right.
    + rewrite (IH (done ++ [(k, pv)]) _ Hprev' Hnd); [reflexivity|].
      rewrite fmap_app. intros x Hx. apply elem_of_app. left. auto.
Qed.

Lemma average_mean l : average l = Ret (mean l).
Proof.
  unfold average, mean. destruct l as [|x l]; [reflexivity|].
  cbn [nonempty]. apply truediv_nonzero, py_len_nonzero. discriminate.
Qed.

Lemma drift_step_pair versions acc i prev curr :
  versions !! (i - 1) = Some prev -> versions !! i = Some curr ->
  NoDup (style_features prev).*1 ->
  drift_step versions acc i
  = Ret (acc.1 ++ [pair_total_drift prev curr],
         acc.2 ++ (if is_drift (prev, curr) then [pair_point prev curr] else [])).
Proof.
  intros Hp Hc Hnd. unfold drift_step, list_getitem. rewrite Hp, Hc.
  cbn [mbind result_bind].
  rewrite (feature_loop _ _ (style_features prev) [] [] eq_refl Hnd) by set_solver.
  cbn [mbind result_bind app]. rewrite average_mean. cbn [mbind result_bind].
  rewrite truediv_nonzero by reflexivity. cbn [mbind result_bind mret result_ret].
  unfold is_drift. cbn [fst snd]. fold (pair_auth_drift prev curr).
  fold (pair_total_drift prev curr).
  destruct (num_gt (pair_total_drift prev curr) (NFloat 0.15)).
  - reflexivity.
  - now rewrite app_nil_r.
Qed.

Lemma drift_step_shift v versions acc i :
  (1 <= i)%nat -> drift_step (v :: versions) acc (S i) = drift_step versions acc i.
Proof.
  intros Hi. unfold drift_step, list_getitem.
  replace (S i - 1)%nat with (S (i - 1)) by lia. reflexivity.
Qed.

Lemma drift_fold_shift v versions ids : forall acc,
  Forall (fun i => 1 <= i)%nat ids ->
  foldM (drift_step (v :: versions)) (map S ids) acc
  = foldM (drift_step versions) ids acc.
Proof.
  induction ids as [|i ids IH]; intros acc Hids; [reflexivity|].
  inversion Hids; subst. cbn [map foldM].
  rewrite drift_step_shift by assumption.
  destruct (drift_step versions acc i); cbn [mbind result_bind]; auto.
Qed.

Lemma drift_fold versions : forall acc,
  Forall (fun v => NoDup (style_features v).*1) versions ->
  foldM (drift_step versions) (seq 1 (length versions - 1)) acc
  = Ret (acc.1 ++ map (fun p => pair_total_drift p.1 p.2) (consecutive versions),
         acc.2 ++ map (fun p => pair_point p.1 p.2)
                      (filter is_drift (consecutive versions))).
Proof.
  induction versions as [|a versions IH]; intros acc Hnd.
  - cbn. now rewrite !app_nil_r, <- surjective_pairing.
  - destruct versions as [|b rest].
    + cbn. now rewrite !app_nil_r, <- surjective_pairing.
    + inversion Hnd as [|? ? Ha Hrest]; subst.
      replace (length (a :: b :: rest) - 1)%nat with (S (length rest)) by (cbn; lia).
      cbn [seq foldM].
      rewrite (drift_step_pair (a :: b :: rest) acc 1 a b eq_refl eq_refl Ha).
      cbn [mbind result_bind]. rewrite <- seq_shift.
      rewrite drift_fold_shift by (apply Forall_forall; intros i Hi; apply elem_of_seq in Hi; lia).
      specialize (IH (acc.1 ++ [pair_total_drift a b],
                      acc.2 ++ (if is_drift (a, b) then [pair_point a b] else [])) Hrest).
      replace (length (b :: rest) - 1)%nat with (length rest) in IH by (cbn; lia).
      rewrite IH. cbn [fst snd consecutive map]. rewrite filter_cons.
      rewrite <- !app_assoc. f_equal. f_equal.
      destruct (is_drift (a, b)) eqn:E.
      * rewrite decide_True by exact I. reflexivity.
      * rewrite decide_False by (intros []). reflexivity.
Qed.

Lemma length_pos_nonempty {A} (l : list A) : (0 <? length l)%nat = nonempty l.
Proof. destruct l; reflexivity. Qed.

Lemma detect_style_drift_eq d w st :
  (2 <= length (versions_of st d))%nat ->
  Forall (fun v => NoDup (style_features v).*1) (versions_of st d) ->
  detect_style_drift d w st = (Ret (expected_report (versions_of st d)), st).
Proof.
  intros Hlen Hnd. unfold detect_style_drift.
  erewrite bind_ret by (unfold documents_get; reflexivity).
  fold (versions_of st d).
  destruct (Nat.ltb_spec (length (versions_of st d)) 2) as [|_]; [lia|].
  erewrite bind_ret by (unfold lift; rewrite (drift_fold _ ([], []) Hnd); reflexivity).
  cbn [fst snd app].
  erewrite bind_ret by (unfold lift; rewrite average_mean; reflexivity).
  unfold expected_report. fold (expected_points (versions_of st d)).
  rewrite length_pos_nonempty. reflexivity.
Qed.

(** ** Equal feature mappings drift by zero *)

Lemma abs_sub_diag n : num_finite n = true -> is_pos_zero (num_abs (num_sub n n)).
Proof.
  destruct n as [z|f]; cbn; intros Hf.
  - left. now rewrite Z.sub_diag.
  - right. now rewrite Binary64.float_sub_diag.
Qed.

Lemma num_add_zeros a b : is_pos_zero a -> is_pos_zero b -> is_pos_zero (num_add a b).
Proof. intros [-> | ->] [-> | ->]; [left|right|right|right]; reflexivity. Qed.

Lemma py_sum_zeros l : Forall is_pos_zero l -> is_pos_zero (py_sum l).
Proof.
  unfold py_sum. assert (H0 : is_pos_zero (NInt 0)) by now left.
  revert H0. generalize (NInt 0). induction l as [|x l IH]; intros acc Hacc Hl; [exact Hacc|].
  inversion Hl; subst. cbn. apply IH; [now apply num_add_zeros|assumption].
Qed.

Lemma mean_zeros l : Forall is_pos_zero l -> is_pos_zero (mean l).
Proof.
  intros Hl. unfold mean. destruct l as [|x l]; [now left|].
  cbn [nonempty]. right. unfold num_div, py_len.
  change (Z.of_nat (length (x :: l))) with (Zpos (Pos.of_succ_nat (length l))).
  destruct (py_sum_zeros _ Hl) as [-> | ->]; f_equal; [reflexivity ..|].
  cbn [to_float]. apply Binary64.zero_div_positive, Binary64.float_of_Z_positive.
Qed.

Lemma shared_drifts_self f : forall todo done,
  f = done ++ todo -> NoDup f.*1 ->
  shared_drifts todo f = map (fun kv => (kv.1, num_abs (num_sub kv.2 kv.2))) todo.
Proof.
  induction todo as [|[k v] todo IH]; intros done Hf Hnd; [reflexivity|].
  assert (Hk : k ∉ done.*1).
  { rewrite Hf, fmap_app in Hnd. apply NoDup_app in Hnd as (_ & Hd & _).
    intros Hin. apply (Hd k Hin). cbn. left. }
  rewrite shared_drifts_cons.
  assert (Hg : dict_get k f = Some v) by (rewrite Hf; now apply dict_get_app_fresh).
  rewrite Hg. cbn [map fst snd]. f_equal.
  apply (IH (done ++ [(k, v)])); [now rewrite <- app_assoc|assumption].
Qed.



(** C6: with fewer than two versions (an unknown id included)
    [detect_style_drift] returns the fixed report: no drift, score 0.0, the
    note, and none of the entries the pairwise computation fills. *)
Theorem detect_style_drift_insufficient d w st :
  (length (versions_of st d) < 2)%nat ->
  detect_style_drift d w st
  = (Ret {| drift_detected := false; drift_score := NFloat 0.0;
            details := Some "Insufficient versions";
            drift_points := None; total_versions := None;
            significant_changes := None |}, st).
Proof.
  intros Hlen. unfold detect_style_drift.
  erewrite bind_ret by (unfold documents_get; reflexivity).
  fold (versions_of st d).
  destruct (Nat.ltb_spec (length (versions_of st d)) 2) as [_|]; [reflexivity|lia].
Qed.

(** ** The read operations return and leave the state alone *)

Lemma dict_get_is_Some {A} k (d : list (string * A)) :
  k ∈ d.*1 -> exists v, dict_get k d = Some v.
Proof.
  induction d as [|[k' v'] d IH]; cbn; intros Hk; [now apply elem_of_nil in Hk|].
  destruct (String.eqb_spec k k'); [eauto|].
  apply elem_of_cons in Hk as [Hk|Hk]; [congruence|auto].
Qed.

Lemma feature_loop_returns prev curr keys :
  keys ⊆ prev.*1 ->
  forall acc, exists r, foldM (feature_drifts_step prev curr) keys acc = Ret r.
Proof.
  induction keys as [|k keys IH]; intros Hk acc; [eexists; reflexivity|].
  cbn [foldM]. rewrite feature_drifts_step_eq.
  destruct (dict_get_is_Some k prev) as [p ->]; [apply Hk; left|].
  assert (Hk' : keys ⊆ prev.*1) by (intros x Hx; apply Hk; now right).
  destruct (dict_get k curr); cbn [mbind result_bind]; apply IH; assumption.
Qed.

Lemma drift_step_returns versions acc i :
  (1 <= i < length versions)%nat -> exists r, drift_step versions acc i = Ret r.
Proof.
  intros Hi. unfold drift_step, list_getitem.
  destruct (lookup_lt_is_Some_2 versions (i - 1) ltac:(lia)) as [prev ->].
  destruct (lookup_lt_is_Some_2 versions i ltac:(lia)) as [curr ->].
  cbn [mbind result_bind].
  destruct (feature_loop_returns (style_features prev) (style_features curr)
              (map fst (style_features prev)) (fun x Hx => Hx) []) as [fd ->].
  cbn [mbind result_bind]. rewrite average_mean. cbn [mbind result_bind].
  rewrite truediv_nonzero by reflexivity. eexists. reflexivity.
Qed.

Lemma drift_fold_returns versions ids :
  Forall (fun i => 1 <= i < length versions)%nat ids ->
  forall acc, exists r, foldM (drift_step versions) ids acc = Ret r.
Proof.
  induction ids as [|i ids IH]; intros Hids acc; [eexists; reflexivity|].
  inversion Hids; subst. cbn [foldM].
  destruct (drift_step_returns versions acc i) as [r ->]; [assumption|].
  cbn [mbind result_bind]. now apply IH.
Qed.

Lemma detect_style_drift_returns d w st :
  exists r, detect_style_drift d w st = (Ret r, st).
Proof.
  unfold detect_style_drift.
  erewrite bind_ret by (unfold documents_get; reflexivity).
  fold (versions_of st d).
  destruct (length (versions_of st d) <? 2)%nat; [eexists; reflexivity|].
  destruct (drift_fold_returns (versions_of st d) (seq 1 (length (versions_of st d) - 1)))
    with (acc := ([] : list num, [] : list drift_point)) as [r Hr].
  { apply Forall_forall. intros i Hi. apply elem_of_seq in Hi. lia. }
  erewrite bind_ret by (unfold lift; rewrite Hr; reflexivity).
  erewrite bind_ret by (unfold lift; rewrite average_mean; reflexivity).
  eexists. reflexivity.
Qed.

Lemma analyze_version_history_eq d st :
  exists drift,
  detect_style_drift d 3 st = (Ret drift, st) /\
  analyze_version_history isoformat np_var d st =
  match versions_of st d with
  | [] => (Ret (NoVersions "No versions found"), st)
  | v0 :: rest =>
      let versions := v0 :: rest in
      let vlast := default v0 (last versions) in
      let many := (1 <? length versions)%nat in
      (Ret (Analysis
        {| analysis_document_id := d;
           analysis_total_versions := length versions;
           time_span_start := isoformat (timestamp v0);
           time_span_end := isoformat (timestamp vlast);
           duration_days :=
             if many then days_between (timestamp v0) (timestamp vlast) else 0%Z;
           direction :=
             if many then
               if num_gt (authenticity_score vlast) (authenticity_score v0)
               then "increasing" else "decreasing"
             else "stable";
           magnitude :=
             if many then
               num_abs (num_sub (authenticity_score vlast) (authenticity_score v0))
             else NInt 0;
           scores := map authenticity_score versions;
           feature_evolution := variance_analysis np_var versions;
           drift_analysis := drift |}), st)
  end.
Proof.
  destruct (detect_style_drift_returns d 3 st) as [r Hr].
  exists r. split; [exact Hr|].
  unfold analyze_version_history.
  erewrite bind_ret by (unfold documents_get; reflexivity).
  fold (versions_of st d).
  destruct (versions_of st d) as [|v0 rest]; [reflexivity|].
  erewrite bind_ret by exact Hr. reflexivity.
Qed.




(** C10: the read operations [detect_style_drift], [analyze_version_history]
    and [get_versions] leave the mapping from documents to versions as it
    was, for known and unknown ids alike. *)
Theorem reads_keep_documents d w st :
  documents (detect_style_drift d w st).2 = documents st
  /\ documents (analyze_version_history isoformat np_var d st).2 = documents st
  /\ documents (get_versions isoformat d st).2 = documents st.
Proof.
  split; [|split].
  - destruct (detect_style_drift_returns d w st) as [r ->]. reflexivity.
  - destruct (analyze_version_history_eq d st) as (drift & _ & ->).
    destruct (versions_of st d); reflexivity.
  - reflexivity.
Qed.

(** ** Saving and loading *)

Lemma fs_run_save_ops docs files :
  fs_run (_save_history_ops isoformat docs) files
  = <[history_path := Doc (history_data isoformat docs)]> files.
Proof. unfold fs_run, _save_history_ops. cbn. now rewrite insert_insert_eq. Qed.

Lemma save_history_eq st :
  _save_history isoformat st
  = (Ret tt, set_disk (insert history_path (Doc (history_data isoformat (documents st)))) st).
Proof.
  unfold _save_history, set_disk, _save_history_ops, fs_run. cbn.
  now rewrite insert_insert_eq.
Qed.

Lemma as_num_members_data f : as_num_members (map (fun kv => (kv.1, JNum kv.2)) f) = Ret f.
Proof.
  induction f as [|[k n] f IH]; [reflexivity|].
  cbn. rewrite IH. reflexivity.
Qed.

Lemma reconstruct_snapshot_data v :
  fromisoformat (isoformat (timestamp v)) = Some (timestamp v) ->
  reconstruct fromisoformat (snapshot_data isoformat v) = Ret v.
Proof.
  intros Hiso. destruct v as [vid ts txt score feats meta]. cbn in Hiso.
  unfold reconstruct, snapshot_data. cbn. rewrite Hiso. cbn.
  rewrite as_num_members_data. reflexivity.
Qed.

Lemma rebuild_snapshots vs :
  Forall (fun v => fromisoformat (isoformat (timestamp v)) = Some (timestamp v)) vs ->
  rebuild fromisoformat (JArr (map (snapshot_data isoformat) vs)) = Ret vs.
Proof.
  unfold rebuild. cbn [iterate mbind result_bind].
  induction vs as [|v vs IH]; intros Hvs; [reflexivity|].
  inversion Hvs; subst. cbn [map map_result].
  rewrite reconstruct_snapshot_data by assumption. cbn [mbind result_bind].
  rewrite IH by assumption. reflexivity.
Qed.

Lemma load_items_saved l : forall docs,
  Forall (fun kv => Forall (fun v => fromisoformat (isoformat (timestamp v))
                                     = Some (timestamp v)) kv.2) l ->
  load_items fromisoformat
    (map (fun kv => (kv.1, JArr (map (snapshot_data isoformat) kv.2))) l) docs
  = (Ret tt, foldl store_entry docs l).
Proof.
  induction l as [|[k vs] l IH]; intros docs Hl; [reflexivity|].
  inversion Hl; subst. cbn [map load_items fst snd].
  rewrite rebuild_snapshots by assumption. now rewrite IH.
Qed.

Lemma foldl_store_entry l : forall docs,
  NoDup l.*1 -> (forall k, k ∈ l.*1 -> docs !! k = None) ->
  foldl store_entry docs l = list_to_map l ∪ docs.
Proof.
  induction l as [|[k vs] l IH]; intros docs Hnd Hfresh.
  - cbn. now rewrite (left_id ∅ (∪)).
  - cbn [fmap list_fmap fst] in Hnd. apply NoDup_cons in Hnd as [Hk Hnd].
    cbn [foldl]. unfold store_entry at 2. cbn [fst snd].
    rewrite IH.
    + cbn [list_to_map foldr fst snd].
      rewrite <- insert_union_l. rewrite <- insert_union_r; [reflexivity|].
      now apply not_elem_of_list_to_map_1.
    + assumption.
    + intros k' Hk'. rewrite lookup_insert_ne.
      * apply Hfresh. cbn. now right.
      * intros ->. contradiction.
Qed.

Lemma load_saved_documents docs :
  (forall d vs v, docs !! d = Some vs -> v ∈ vs ->
     fromisoformat (isoformat (timestamp v)) = Some (timestamp v)) ->
  load_content fromisoformat (Doc (history_data isoformat docs)) ∅ = (Ret tt, docs).
Proof.
  intros Hiso. unfold load_content, history_data.
  rewrite load_items_saved.
  - rewrite foldl_store_entry.
    + now rewrite list_to_map_to_list, (right_id ∅ (∪)).
    + apply NoDup_fst_map_to_list.
    + intros k _. apply lookup_empty.
  - apply Forall_forall. intros [k vs] Hk. apply elem_of_map_to_list in Hk.
    apply Forall_forall. intros v Hv. cbn in *. eauto.
Qed.

(** C5: a restart right after [_save_history] finds the store as it was
    saved: [_load_history], run on an empty store over the file just
    written, rebuilds every document with the same snapshots in the same
    order and reports nothing. The timestamps of the store are read back by
    [fromisoformat] as [isoformat] wrote them. *)
Theorem save_load_roundtrip st :
  (forall d vs v, documents st !! d = Some vs -> v ∈ vs ->
     fromisoformat (isoformat (timestamp v)) = Some (timestamp v)) ->
  let saved := (_save_history isoformat st).2 in
  let fresh := {| documents := ∅; disk := disk saved; console := [] |} in
  _load_history fromisoformat fresh
  = (Ret tt, {| documents := documents st; disk := disk saved; console := [] |}).
Proof.
  intros Hiso saved fresh. subst saved fresh. rewrite save_history_eq.
  unfold _load_history, set_disk, set_documents. cbn [snd documents disk console].
  rewrite lookup_insert_eq, load_saved_documents by assumption. reflexivity.
Qed.

(** ** Malformed records *)

Lemma load_items_stops done : forall docs doc_id bad rest e,
  Forall (fun kv => exists vs, rebuild fromisoformat kv.2 = Ret vs) done ->
  rebuild fromisoformat bad = Raise e ->
  load_items fromisoformat (done ++ (doc_id, bad) :: rest) docs
  = (Raise e, foldl (store_rebuilt fromisoformat) docs done).
Proof.
  induction done as [|[k j] done IH]; intros docs doc_id bad rest e Hdone Hbad.
  - cbn. now rewrite Hbad.
  - inversion Hdone as [|? ? [vs Hvs] Hdone']; subst. cbn in Hvs.
    cbn [app load_items foldl]. unfold store_rebuilt at 2. cbn [fst snd].
    rewrite Hvs. now apply IH.
Qed.

Lemma store_rebuilt_other done : forall docs k,
  k ∉ done.*1 -> foldl (store_rebuilt fromisoformat) docs done !! k = docs !! k.
Proof.
  induction done as [|[k' j] done IH]; intros docs k Hk; [reflexivity|].
  apply not_elem_of_cons in Hk as [Hne Hk]. cbn [foldl].
  rewrite IH by assumption. unfold store_rebuilt. cbn [fst snd].
  destruct (rebuild fromisoformat j); [|reflexivity].
  now rewrite lookup_insert_ne.
Qed.



(** ** Writing in place *)

(** [crash_safe] is what write-then-swap gives. *)
Lemma write_then_swap_crash_safe tmp data d :
  tmp <> history_path -> crash_safe (write_then_swap tmp data) d.
Proof.
  intros Hne k. cbv zeta. unfold write_then_swap, fs_run.
  destruct k as [|[|[|k]]]; cbn [take foldl fs_step].
  - now left.
  - left. now rewrite lookup_insert_ne.
  - left. now rewrite !lookup_insert_ne.
  - rewrite take_nil. now right.
Qed.

Lemma delete_document_eq d st :
  delete_document isoformat d st =
  match documents st !! d with
  | Some _ =>
      (Ret 200%nat,
       {| documents := delete d (documents st);
          disk := <[history_path := Doc (history_data isoformat (delete d (documents st)))]>
                    (disk st);
          console := console st |})
  | None => (Ret 404%nat, st)
  end.
Proof.
  unfold delete_document. destruct (documents st !! d); [|reflexivity].
  erewrite bind_ret by apply save_history_eq. reflexivity.
Qed.

(** C8 (amended): every mutating operation rewrites [history.json] in
    place: the file is opened for writing, which empties it, and the whole
    store as the operation leaves it is dumped into it; no temporary file and
    no rename are involved. A completed write leaves the file holding the
    complete store and no other file touched; a write cut short after the
    open leaves it unparseable. *)
Theorem persistence_in_place env d text ts meta st :
  let ops docs := _save_history_ops isoformat docs in
  let after_add := (add_version isoformat env d text ts meta st).2 in
  let after_delete := (delete_document isoformat d st).2 in
  (forall docs, ops docs = [OpenW history_path; Dump history_path (history_data isoformat docs)])
  /\ disk after_add = fs_run (ops (documents after_add)) (disk st)
  /\ disk after_add
     = <[history_path := Doc (history_data isoformat (documents after_add))]> (disk st)
  /\ disk after_delete
     = match documents st !! d with
       | Some _ =>
           <[history_path := Doc (history_data isoformat (documents after_delete))]> (disk st)
       | None => disk st
       end
  /\ forall docs files,
       fs_run (take 1 (ops docs)) files !! history_path = Some Unparseable.
Proof.
  intros ops after_add after_delete. subst ops after_add after_delete.
  destruct (add_version_spec env d text ts meta st)
    as (score & feats & st1 & _ & _ & _ & _ & Hadd).
  cbv zeta in Hadd. rewrite Hadd. cbn [snd disk documents].
  rewrite delete_document_eq.
  split; [reflexivity|]. split.
  { now rewrite fs_run_save_ops. }
  split; [reflexivity|]. split.
  - destruct (documents st !! d); reflexivity.
  - intros docs files. cbn. apply lookup_insert_eq.
Qed.

End Properties.

(** ** Counterexamples *)


(** The counterexample to C8 as stated: [add_version] on a store whose
    history is already on disk writes in place, and a write cut short after
    the open leaves [history.json] neither as it was nor as the complete
    write leaves it. *)
Lemma save_history_not_crash_safe :
  let st0 := {| documents := ∅;
                disk := {[ history_path := Doc (JObj []) ]};
                console := [] |} in
  let st1 := (add_version isoformat_naive demo_env "essay" ""
                          (Some 63840911400000000%Z) None st0).2 in
  documents st1 = {[ "essay" := [demo_snapshot] ]}
  /\ disk st1 = fs_run (_save_history_ops isoformat_naive (documents st1)) (disk st0)
  /\ ~ crash_safe (_save_history_ops isoformat_naive (documents st1)) (disk st0).
Proof.
  intros st0 st1.
  destruct (add_version_spec isoformat_naive demo_env "essay" ""
              (Some 63840911400000000%Z) None st0)
    as (score & feats & stc & Hscore & _ & _ & Hfeats & Hadd).
  cbv zeta in Hadd.
  apply (f_equal fst) in Hscore. vm_compute in Hscore. injection Hscore as <-.
  vm_compute in Hfeats. injection Hfeats as <-.
  assert (Hdocs : documents st1 = {[ "essay" := [demo_snapshot] ]}).
  { subst st1. rewrite Hadd. cbn [snd documents].
    unfold versions_of, st0. cbn [documents]. rewrite lookup_empty. reflexivity. }
  split; [exact Hdocs|]. split.
  - rewrite fs_run_save_ops. subst st1. rewrite Hadd. reflexivity.
  - rewrite Hdocs. intros Hsafe. specialize (Hsafe 1%nat). cbv zeta in Hsafe.
    unfold _save_history_ops, fs_run, st0 in Hsafe.
    cbn [take foldl fs_step disk] in Hsafe.
    rewrite !insert_insert_eq, !lookup_insert_eq, lookup_singleton_eq in Hsafe.
    destruct Hsafe as [H|H]; discriminate.
Qed.

(** ** Worked examples *)

Lemma demo_versions : versions_of demo_state "essay" = [demo_snapshot; demo_snapshot_2].
Proof. unfold versions_of, demo_state. cbn [documents]. now rewrite lookup_singleton_eq. Qed.

Lemma zero_features_keys : NoDup zero_features.*1.
Proof. apply (bool_decide_unpack _). vm_compute. exact I. Qed.

Lemma zero_features_fit : Forall (fun kv => fits kv.2) zero_features.
Proof. repeat constructor; cbn; lia. Qed.

Lemma demo_numbers_fit : Forall numbers_fit [demo_snapshot; demo_snapshot_2].
Proof.
  constructor; [split; [exact I|exact zero_features_fit]|].
  constructor; [split; [exact I|exact zero_features_fit]|]. constructor.
Qed.


Lemma add_version_sorted_witness :
  let T1 := 63840911400000000%Z in
  let T2 := 63840997800000000%Z in
  let T3 := 63841084200000000%Z in
  let s1 := (add_version isoformat_naive demo_env "essay" "" (Some T3) None empty_state).2 in
  let s2 := (add_version isoformat_naive demo_env "essay" "" (Some T1) None s1).2 in
  let s3 := (add_version isoformat_naive demo_env "essay" "" (Some T2) None s2).2 in
  (T1 <= T2 <= T3)%Z
  /\ StronglySorted Z.le (map timestamp (versions_of s3 "essay"))
  /\ map timestamp (versions_of s3 "essay") = [T1; T2; T3].
Proof.
  intros T1 T2 T3 s1 s2 s3.
  split; [subst T1 T2 T3; lia|].
  split.
  - exact (proj1 (add_version_sorted isoformat_naive demo_env "essay" "" (Some T2) None s2)).
  - destruct (add_version_sorted isoformat_naive demo_env "essay" "" None None empty_state)
      as (_ & _ & _ & Horder).
    apply (Horder T1 T2 T3 demo_env demo_env demo_env "" "" "" None None None).
    + subst T1 T2 T3; lia.
    + reflexivity.
Defined.

Lemma add_version_numbering_witness :
  let cs := [demo_call "essay" 63841084200000000; demo_call "notes" 0;
             demo_call "essay" 63840911400000000] in
  exists snap,
    (run_calls isoformat_naive cs empty_state).1 !! 2%nat = Some (Ret snap)
    /\ version_id snap = "essay_v2".
Proof.
  intros cs.
  destruct (add_version_numbering isoformat_naive cs empty_state "essay" 2
              (demo_call "essay" 63840911400000000) eq_refl eq_refl eq_refl)
    as (snap & Hret & Hid).
  exists snap. split; [exact Hret|]. rewrite Hid. reflexivity.
Defined.


Lemma save_load_roundtrip_witness :
  let saved := (_save_history isoformat_naive demo_state).2 in
  _load_history fromisoformat_naive
    {| documents := ∅; disk := disk saved; console := [] |}
  = (Ret tt, {| documents := documents demo_state; disk := disk saved; console := [] |}).
Proof.
  apply (save_load_roundtrip isoformat_naive fromisoformat_naive demo_state).
  intros d vs v Hd Hv. unfold demo_state in Hd. cbn [documents] in Hd.
  apply lookup_singleton_Some in Hd as [_ <-].
  apply elem_of_cons in Hv as [->|Hv]; [reflexivity|].
  apply elem_of_cons in Hv as [->|Hv]; [reflexivity|].
  now apply elem_of_nil in Hv.
Defined.

Lemma detect_style_drift_insufficient_witness :
  detect_style_drift "unknown" 3 empty_state
  = (Ret {| drift_detected := false; drift_score := NFloat 0.0;
            details := Some "Insufficient versions";
            drift_points := None; total_versions := None;
            significant_changes := None |}, empty_state).
Proof.
  apply (detect_style_drift_insufficient "unknown" 3 empty_state).
  unfold versions_of, empty_state. cbn [documents]. rewrite lookup_empty. cbn. lia.
Defined.


(** * Further properties

    What the rest of the tracker, the handlers of [app.py] and the
    confusion matrix of the evaluator do, read off their code. *)

(** ** The authenticity score *)

Lemma ltb_leb x y : (x <? y)%float = true -> (x <=? y)%float = true.
Proof.
  rewrite ltb_spec, leb_spec. unfold SFltb, SFleb.
  destruct (SFcompare (Prim2SF x) (Prim2SF y)) as [[]|]; congruence.
Qed.

Lemma clamp_range score :
  (0 <=? clamp score)%float = true /\ (clamp score <=? 1)%float = true.
Proof.
  unfold clamp.
  destruct (score <? 1.0)%float eqn:H1.
  - destruct (0.0 <? score)%float eqn:H0.
    + split; now apply ltb_leb.
    + split; reflexivity.
  - split; reflexivity.
Qed.

Lemma analyze_authenticity_cases env text st :
  exists s st1,
    _analyze_authenticity env text st = (Ret (NFloat s), st1)
    /\ (0 <=? s)%float = true /\ (s <=? 1)%float = true
    /\ documents st1 = documents st /\ disk st1 = disk st.
Proof.
  destruct (analyze_authenticity_frame env text st) as (score & st1 & Ha & Hd & Hk).
  assert (Hs : exists s, score = NFloat s
                         /\ (0 <=? s)%float = true /\ (s <=? 1)%float = true).
  { revert Ha. unfold _analyze_authenticity.
    destruct (client env) as [create|]; [|intros [= <- _]; now exists 0.7%float].
    destruct (create _) as [e|c]; [intros [= <- _]; now exists 0.5%float|].
    destruct (search_number c) as [run|]; [|intros [= <- _]; now exists 0.5%float].
    destruct (float_of_digits run) as [x|e]; intros [= <- _].
    - exists (clamp x). split; [reflexivity|apply clamp_range].
    - now exists 0.5%float. }
  destruct Hs as (s & -> & H0 & H1). exists s, st1. auto.
Qed.


(** ** Feature extraction *)

Lemma extract_keys text :
  exists f, _extract_style_features text = Ret f /\ f.*1 = zero_features.*1.
Proof.
  unfold _extract_style_features.
  repeat match goal with
  | |- context [ratio ?a ?b] =>
      let n := fresh "n" in let E := fresh "E" in
      destruct (ratio_returns a b) as [n E]; rewrite E; clear E;
      cbn [mbind result_bind]
  end.
  eexists. split; reflexivity.
Qed.

(** X2: [_extract_style_features] raises nothing on any text, the guards
    keeping every division from a zero divisor; it returns the seven
    features under their keys, the two counts as non-negative ints. *)
Theorem extract_features_shape text :
  exists f w s,
    _extract_style_features text = Ret f
    /\ f.*1 = zero_features.*1
    /\ (0 <= w)%Z /\ (0 <= s)%Z
    /\ dict_get "word_count" f = Some (NInt w)
    /\ dict_get "sentence_count" f = Some (NInt s).
Proof.
  unfold _extract_style_features.
  repeat match goal with
  | |- context [ratio ?a ?b] =>
      let n := fresh "n" in let E := fresh "E" in
      destruct (ratio_returns a b) as [n E]; rewrite E; clear E;
      cbn [mbind result_bind]
  end.
  eexists _, _, _. split; [reflexivity|]. split; [reflexivity|].
  split; [apply Nat2Z.is_nonneg|]. split; [apply Nat2Z.is_nonneg|].
  split; reflexivity.
Qed.

(** Lowering a character changes none of the classes the extractor looks
    at, apart from the capitals. *)
Lemma lower_char_classes c :
  is_punctuation (lower_char c) = is_punctuation c
  /\ is_sentence_end (lower_char c) = is_sentence_end c
  /\ is_space (lower_char c) = is_space c.
Proof. destruct c as [[] [] [] [] [] [] [] []]; vm_compute; repeat split. Qed.

Lemma lstrip_lower cs : lstrip (map lower_char cs) = map lower_char (lstrip cs).
Proof.
  induction cs as [|c cs IH]; [reflexivity|]. cbn.
  destruct (lower_char_classes c) as (_ & _ & ->).
  destruct (is_space c); [exact IH|reflexivity].
Qed.

Lemma strip_lower cs : strip (map lower_char cs) = map lower_char (strip cs).
Proof. unfold strip. now rewrite lstrip_lower, <- map_rev, lstrip_lower, map_rev. Qed.

Lemma split_sentences_lower cs : forall cur b,
  split_sentences (map lower_char cs) (map lower_char cur) b
  = map (map lower_char) (split_sentences cs cur b).
Proof.
  induction cs as [|c cs IH]; intros cur b; cbn.
  - now rewrite map_rev.
  - destruct (lower_char_classes c) as (_ & -> & _).
    destruct (is_sentence_end c).
    + destruct b; [apply IH|]. cbn. rewrite map_rev. f_equal. apply (IH [] true).
    + apply (IH (c :: cur) false).
Qed.

Lemma filter_length_map {A B} (f : A -> B) (P : B -> Prop) `{!forall x, Decision (P x)} l :
  length (filter P (map f l)) = length (filter (fun x => P (f x)) l).
Proof.
  induction l as [|x l IH]; [reflexivity|]. cbn [map]. rewrite !filter_cons.
  destruct (decide (P (f x))); cbn; now rewrite IH.
Qed.

Lemma sentence_count_lower cs : sentence_count (map lower_char cs) = sentence_count cs.
Proof.
  unfold sentence_count. rewrite !length_map.
  change (split_sentences (map lower_char cs) [] false)
    with (split_sentences (map lower_char cs) (map lower_char []) false).
  rewrite (split_sentences_lower cs [] false), filter_length_map.
  f_equal. apply list_filter_iff. intros s. rewrite strip_lower.
  now destruct (strip s).
Qed.

Lemma punctuation_count_lower cs :
  length (filter is_punctuation (map lower_char cs)) = length (filter is_punctuation cs).
Proof.
  rewrite filter_length_map. f_equal. apply list_filter_iff. intros c.
  now destruct (lower_char_classes c) as (-> & _).
Qed.

Lemma length_lower text : length (lower text) = String.length text.
Proof.
  unfold lower. rewrite length_map.
  induction text as [|c t IH]; [reflexivity|]. cbn. now rewrite IH.
Qed.

(** X3: the features do not see the case of the letters, the capitals ratio
    apart: two texts that are equal once lowered get the same value under
    every other key. *)
Theorem extract_case_insensitive text text' :
  lower text = lower text' ->
  exists f f',
    _extract_style_features text = Ret f
    /\ _extract_style_features text' = Ret f'
    /\ forall key, key <> "caps_ratio" -> dict_get key f = dict_get key f'.
Proof.
  intros Hl.
  assert (Hs : sentence_count (list_ascii_of_string text)
               = sentence_count (list_ascii_of_string text')).
  { rewrite <- (sentence_count_lower (list_ascii_of_string text)),
            <- (sentence_count_lower (list_ascii_of_string text')).
    now fold (lower text); fold (lower text'); rewrite Hl. }
  assert (Hp : length (filter is_punctuation (list_ascii_of_string text))
               = length (filter is_punctuation (list_ascii_of_string text'))).
  { rewrite <- (punctuation_count_lower (list_ascii_of_string text)),
            <- (punctuation_count_lower (list_ascii_of_string text')).
    now fold (lower text); fold (lower text'); rewrite Hl. }
  assert (Hc : String.length text = String.length text').
  { now rewrite <- !length_lower, Hl. }
  unfold sentence_count in Hs.
  unfold _extract_style_features. rewrite <- Hl, <- Hs, <- Hp, <- Hc.
  repeat match goal with
  | |- context [ratio ?a ?b] =>
      let n := fresh "n" in let E := fresh "E" in
      destruct (ratio_returns a b) as [n E]; rewrite E; clear E;
      cbn [mbind result_bind]
  end.
  eexists _, _. split; [reflexivity|]. split; [reflexivity|].
  intros key Hkey. cbn [dict_get].
  repeat match goal with
  | |- context [String.eqb key ?k] => destruct (String.eqb_spec key k); [try congruence|]
  end; reflexivity.
Qed.

Lemma space_classes c :
  is_space c = true ->
  is_word_char (lower_char c) = false /\ is_sentence_end c = false
  /\ is_punctuation c = false /\ isupper c = false.
Proof.
  destruct c as [[] [] [] [] [] [] [] []]; vm_compute; intros; repeat split; congruence.
Qed.

Lemma findall_words_blank cs :
  Forall (fun c => is_space c = true) cs -> findall_words (map lower_char cs) [] = [].
Proof.
  induction 1 as [|c cs Hc _ IH]; [reflexivity|]. cbn.
  destruct (space_classes c Hc) as (-> & _). exact IH.
Qed.

Lemma split_sentences_plain cs : forall cur,
  Forall (fun c => is_sentence_end c = false) cs ->
  split_sentences cs cur false = [rev cur ++ cs].
Proof.
  induction cs as [|c cs IH]; intros cur H; cbn.
  - now rewrite app_nil_r.
  - inversion H as [|? ? Hc H']; subst. rewrite Hc, IH by assumption.
    cbn. now rewrite <- app_assoc.
Qed.

Lemma lstrip_blank cs : Forall (fun c => is_space c = true) cs -> lstrip cs = [].
Proof. induction 1 as [|c cs Hc _ IH]; [reflexivity|]. cbn. now rewrite Hc. Qed.

Lemma filter_none {A} (P : A -> bool) l :
  Forall (fun x => P x = false) l -> filter P l = [].
Proof.
  induction 1 as [|x l Hx _ IH]; [reflexivity|].
  rewrite filter_cons_False; [exact IH|]. rewrite Hx. exact id.
Qed.

(** X4: a text of white space only has no word and no sentence: the three
    averages over them are the int 0 of the guards, and the two ratios over
    the character count are 0.0. *)
Theorem blank_text_features text :
  text <> "" ->
  Forall (fun c => is_space c = true) (list_ascii_of_string text) ->
  _extract_style_features text = Ret blank_features.
Proof.
  intros Hne Hsp.
  assert (Hw : findall_words (lower text) [] = []) by now apply findall_words_blank.
  assert (Hs : split_sentences (list_ascii_of_string text) [] false
               = [list_ascii_of_string text]).
  { rewrite split_sentences_plain; [reflexivity|].
    eapply Forall_impl; [exact Hsp|]. intros c Hc.
    now destruct (space_classes c Hc) as (_ & -> & _). }
  assert (Hst : strip (list_ascii_of_string text) = []).
  { unfold strip. rewrite (lstrip_blank _ Hsp). reflexivity. }
  assert (Hp : filter is_punctuation (list_ascii_of_string text) = []).
  { apply filter_none. eapply Forall_impl; [exact Hsp|]. intros c Hc.
    now destruct (space_classes c Hc) as (_ & _ & -> & _). }
  assert (Hu : filter isupper (list_ascii_of_string text) = []).
  { apply filter_none. eapply Forall_impl; [exact Hsp|]. intros c Hc.
    now destruct (space_classes c Hc) as (_ & _ & _ & ->). }
  unfold _extract_style_features.
  rewrite Hw, Hs, Hp, Hu.
  rewrite filter_cons_False by (rewrite Hst; exact id).
  cbn [filter list_filter map length list_sum count_distinct remove_dups Z.of_nat].
  destruct text as [|c t]; [congruence|].
  reflexivity.
Qed.

(** ** The order and the ids of the versions *)

Lemma insert_by_timestamp_perm v l : insert_by_timestamp v l ≡ₚ v :: l.
Proof.
  induction l as [|w l IH]; cbn; [reflexivity|].
  destruct (timestamp v <=? timestamp w)%Z; [reflexivity|].
  rewrite IH. apply Permutation_swap.
Qed.

Lemma sort_by_timestamp_perm l : sort_by_timestamp l ≡ₚ l.
Proof.
  induction l as [|v l IH]; [reflexivity|].
  now rewrite sort_by_timestamp_cons, insert_by_timestamp_perm, IH.
Qed.

Lemma sort_by_timestamp_snoc l v :
  sort_by_timestamp (l ++ [v]) = foldr insert_by_timestamp [v] l.
Proof. unfold sort_by_timestamp. now rewrite foldr_app. Qed.

Lemma insert_sorted_position v l :
  StronglySorted Z.le (map timestamp l) ->
  foldr insert_by_timestamp [v] l
  = filter (fun w => timestamp w <= timestamp v)%Z l
    ++ v :: filter (fun w => timestamp v < timestamp w)%Z l.
Proof.
  induction l as [|a l IH]; intros Hs; [reflexivity|].
  cbn [map] in Hs. inversion Hs as [|? ? Hs' Hall]; subst.
  cbn [foldr]. rewrite (IH Hs'). rewrite !filter_cons.
  destruct (decide (timestamp a <= timestamp v)%Z) as [Hle|Hgt].
  - rewrite decide_False by lia.
    destruct (filter (fun w => (timestamp w <= timestamp v)%Z) l) as [|b f] eqn:Hf.
    + cbn. now destruct (Z.leb_spec (timestamp a) (timestamp v)); [|lia].
    + cbn. assert (Hb : b ∈ l).
      { eapply (proj1 (list_elem_of_filter _ _ _)). rewrite Hf. left. }
      rewrite Forall_forall in Hall.
      assert (timestamp a <= timestamp b)%Z.
      { apply Hall. change (map timestamp l) with (timestamp <$> l).
        now apply list_elem_of_fmap_2. }
      now destruct (Z.leb_spec (timestamp a) (timestamp b)); [|lia].
  - rewrite decide_True by lia.
    assert (Hlater : Forall (fun w => timestamp v < timestamp w)%Z l).
    { rewrite Forall_forall in Hall. apply Forall_forall. intros w Hw.
      assert (timestamp a <= timestamp w)%Z; [|lia].
      apply Hall. change (map timestamp l) with (timestamp <$> l).
      now apply list_elem_of_fmap_2. }
    assert (Hnone : filter (fun w => (timestamp w <= timestamp v)%Z) l = []).
    { clear -Hlater. induction Hlater as [|w l Hw _ IH]; [reflexivity|].
      rewrite filter_cons_False by lia. exact IH. }
    assert (Hall' : filter (fun w => (timestamp v < timestamp w)%Z) l = l).
    { clear -Hlater. induction Hlater as [|w l Hw _ IH]; [reflexivity|].
      rewrite filter_cons_True by lia. now rewrite IH. }
    rewrite Hnone, Hall'. cbn.
    destruct (Z.leb_spec (timestamp a) (timestamp v)); [lia|].
    f_equal. destruct l as [|b l']; [reflexivity|]. cbn.
    inversion Hall as [|? ? Hab _]; subst.
    now destruct (Z.leb_spec (timestamp a) (timestamp b)); [|lia].
Qed.

Lemma sorted_versions_bounds v0 rest :
  StronglySorted Z.le (map timestamp (v0 :: rest)) ->
  let vlast := default v0 (last (v0 :: rest)) in
  vlast ∈ v0 :: rest
  /\ Forall (fun v => timestamp v0 <= timestamp v <= timestamp vlast)%Z (v0 :: rest).
Proof.
  intros Hs vlast.
  assert (Hin : vlast ∈ v0 :: rest).
  { subst vlast. destruct (last (v0 :: rest)) eqn:E; [|left].
    apply last_Some in E as [l' E]. rewrite E. apply elem_of_app. right. left. }
  split; [exact Hin|].
  assert (Hlast : forall l (a : VersionSnapshot),
            StronglySorted Z.le (map timestamp (a :: l)) ->
            Forall (fun v => timestamp v <= timestamp (default a (last (a :: l))))%Z (a :: l)).
  { clear. induction l as [|b l IH]; intros a Hs.
    - cbn. constructor; [lia|constructor].
    - cbn [map] in Hs. inversion Hs as [|? ? Hs' Hall]; subst.
      specialize (IH b Hs').
      assert (Hd : default a (last (a :: b :: l)) = default b (last (b :: l))).
      { change (last (a :: b :: l)) with (last (b :: l)).
        destruct (last (b :: l)) eqn:E; [reflexivity|].
        apply last_None in E. discriminate. }
      rewrite Hd. constructor; [|exact IH].
      inversion Hall as [|? ? Hab _]; subst. inversion IH; subst. lia. }
  specialize (Hlast rest v0 Hs). fold vlast in Hlast.
  apply Forall_cons in Hlast as [Hl0 Hl'].
  cbn [map] in Hs. apply StronglySorted_inv in Hs as [_ Hall].
  constructor; [lia|].
  apply Forall_forall. intros v Hv.
  rewrite Forall_forall in Hall. rewrite Forall_forall in Hl'.
  split; [|now apply Hl'].
  apply Hall. change (map timestamp rest) with (timestamp <$> rest).
  now apply list_elem_of_fmap_2.
Qed.

Lemma to_uint_not_nil n : Nat.to_uint n <> Decimal.Nil.
Proof.
  intros Hn. assert (n = 0%nat) as ->.
  { rewrite <- (DecimalNat.Unsigned.of_to n), Hn. reflexivity. }
  discriminate.
Qed.

Lemma str_inj m n : str m = str n -> m = n.
Proof.
  unfold str. intros H.
  apply (f_equal NilZero.uint_of_string) in H.
  rewrite !NilZero.usu in H by apply to_uint_not_nil.
  injection H as H. apply (f_equal Nat.of_uint) in H.
  now rewrite !DecimalNat.Unsigned.of_to in H.
Qed.

Lemma append_inj_r p s s' : p +:+ s = p +:+ s' -> s = s'.
Proof. induction p as [|c p IH]; cbn; [easy|]. intros [= H]. now apply IH. Qed.

Lemma numbered_ids_inj d m n :
  d +:+ "_v" +:+ str m = d +:+ "_v" +:+ str n -> m = n.
Proof. intros H. now apply append_inj_r, append_inj_r, str_inj in H. Qed.

Lemma numbered_NoDup d vs : numbered d vs -> NoDup (map version_id vs).
Proof.
  unfold numbered. intros ->.
  apply (NoDup_fmap_2_strong (fun n => d +:+ "_v" +:+ str n)).
  - intros m n _ _. apply numbered_ids_inj.
  - apply NoDup_seq.
Qed.

(** ** Dictionaries, once more *)







Lemma dict_get_map_to_list {A B} (f : A -> B) (m : gmap string A) k :
  dict_get k (map (fun kv => (kv.1, f kv.2)) (map_to_list m)) = f <$> m !! k.
Proof.
  assert (H : forall l : list (string * A), NoDup l.*1 ->
            dict_get k (map (fun kv => (kv.1, f kv.2)) l)
            = f <$> (list_to_map l : gmap string A) !! k).
  { induction l as [|[k' a] l IH]; intros Hnd; [cbn; now rewrite lookup_empty|].
    cbn [fmap list_fmap fst] in Hnd. apply NoDup_cons in Hnd as [Hk' Hnd].
    cbn [map dict_get list_to_map foldr fst snd uncurry].
    destruct (String.eqb_spec k k') as [->|Hne].
    - now rewrite lookup_insert_eq.
    - rewrite lookup_insert_ne by congruence. now apply IH. }
  rewrite H by apply NoDup_fst_map_to_list. now rewrite list_to_map_to_list.
Qed.

(** ** The values of a feature across the versions *)





(** ** The confusion matrix *)

Lemma count_result_cells c r :
  cells (DatasetEvaluator.count_result c r) = cells c
  \/ (is_Some (DatasetEvaluator.correct r)
      /\ cells (DatasetEvaluator.count_result c r) = S (cells c)).
Proof.
  unfold DatasetEvaluator.count_result.
  destruct (DatasetEvaluator.correct r) as [b|]; [|now left].
  repeat match goal with
  | |- context [if ?b then _ else _] => destruct b
  end; unfold cells; cbn; first [left; lia | right; split; [eauto|lia]].
Qed.

Lemma count_result_labelled c r b :
  DatasetEvaluator.correct r = Some b ->
  is_label (DatasetEvaluator.true_label r) ->
  is_label (DatasetEvaluator.predicted_label r) ->
  cells (DatasetEvaluator.count_result c r) = S (cells c)
  /\ diagonal (DatasetEvaluator.count_result c r)
     = diagonal c + (if String.eqb (DatasetEvaluator.true_label r)
                                   (DatasetEvaluator.predicted_label r)
                     then 1 else 0).
Proof.
  intros Hc Ht Hp. unfold DatasetEvaluator.count_result. rewrite Hc.
  destruct Ht as [-> | ->], Hp as [-> | ->]; unfold cells, diagonal; cbn; lia.
Qed.

Lemma confusion_fold_bound results : forall c,
  cells (foldl DatasetEvaluator.count_result c results)
  <= cells c + length (evaluated results).
Proof.
  induction results as [|r results IH]; intros c; [cbn; lia|].
  cbn [foldl]. specialize (IH (DatasetEvaluator.count_result c r)).
  unfold evaluated in *. rewrite filter_cons.
  destruct (count_result_cells c r) as [H|[Hs H]].
  - destruct (decide (is_Some (DatasetEvaluator.correct r))); cbn [length]; lia.
  - rewrite decide_True by assumption. cbn [length]. lia.
Qed.

Lemma confusion_fold_marked results : forall c,
  Forall marked results ->
  cells (foldl DatasetEvaluator.count_result c results)
  = cells c + length (evaluated results)
  /\ diagonal (foldl DatasetEvaluator.count_result c results)
     = diagonal c
       + length (filter (fun r => DatasetEvaluator.correct r = Some true) results).
Proof.
  induction results as [|r results IH]; intros c Hall; [cbn; lia|].
  inversion Hall as [|? ? (Ht & Hp & Hc) Hall']; subst.
  cbn [foldl]. destruct (IH (DatasetEvaluator.count_result c r) Hall') as [IH1 IH2].
  rewrite IH1, IH2. unfold evaluated. rewrite !filter_cons.
  destruct (DatasetEvaluator.correct r) as [b|] eqn:E.
  - destruct (count_result_labelled c r b E Ht Hp) as [H1 H2].
    rewrite H1, H2. rewrite decide_True by eauto.
    specialize (Hc ltac:(eauto)). injection Hc as ->.
    destruct (String.eqb (DatasetEvaluator.true_label r)
                         (DatasetEvaluator.predicted_label r)).
    + rewrite decide_True by reflexivity. cbn [length]. lia.
    + rewrite decide_False by discriminate. cbn [length]. lia.
  - rewrite decide_False by (intros [? ?]; discriminate).
    rewrite decide_False by discriminate.
    unfold DatasetEvaluator.count_result. rewrite E. lia.
Qed.

(** X26: the confusion matrix counts a result at most once and only if it
    was compared with a label: the four cells sum to at most the number of
    such results. When every result carries the labels "human" or "ai" and
    is marked correct exactly when they agree, the cells sum to that number
    and the two cells of agreement to the number of correct results. *)
Theorem confusion_matrix_counts results :
  let c := DatasetEvaluator._calculate_confusion_matrix results in
  cells c <= length (evaluated results)
  /\ (Forall marked results ->
      cells c = length (evaluated results)
      /\ diagonal c
         = length (filter (fun r => DatasetEvaluator.correct r = Some true) results)).
Proof.
  intros c. subst c. unfold DatasetEvaluator._calculate_confusion_matrix. split.
  - apply (confusion_fold_bound results).
  - intros Hall. now apply (confusion_fold_marked results).
Qed.

Section Further.
Context (isoformat : datetime -> string) (fromisoformat : string -> option datetime)
        (np_var : list num -> float).
Context (list_str : list json -> string) (dict_slice_error : exn).

(** ** Adding and deleting *)

Lemma timestamps_readable_add_version env d text ts meta st :
  timestamps_readable isoformat fromisoformat (documents st) ->
  fromisoformat (isoformat (default (now env) ts)) = Some (default (now env) ts) ->
  timestamps_readable isoformat fromisoformat
    (documents (add_version isoformat env d text ts meta st).2).
Proof.
  intros Hst Hts d' vs v Hd' Hv.
  destruct (versions_of_add_version isoformat env d text ts meta st d')
    as (snap & _ & _ & Hsnap & Hvs).
  assert (Hvs' : versions_of (add_version isoformat env d text ts meta st).2 d' = vs)
    by (unfold versions_of; now rewrite Hd').
  rewrite Hvs' in Hvs. clear Hvs' Hd'. subst vs.
  destruct (decide (d = d')) as [<-|Hne].
  - rewrite sort_by_timestamp_perm in Hv. apply elem_of_app in Hv as [Hv|Hv].
    + unfold versions_of in Hv. destruct (documents st !! d) as [vs|] eqn:E.
      * exact (Hst d vs v E Hv).
      * now apply elem_of_nil in Hv.
    + apply list_elem_of_singleton in Hv. subst v. now rewrite Hsnap.
  - unfold versions_of in Hv. destruct (documents st !! d') as [vs|] eqn:E.
    + exact (Hst d' vs v E Hv).
    + now apply elem_of_nil in Hv.
Qed.


(** X6: on a list in timestamp order the new version goes after the versions
    that are not later than it, one with the same timestamp included, and
    before the later ones, all of which keep their order; with no later
    version it goes last. *)
Theorem add_version_position env d text ts meta st :
  StronglySorted Z.le (map timestamp (versions_of st d)) ->
  exists snap st',
    add_version isoformat env d text ts meta st = (Ret snap, st')
    /\ versions_of st' d
       = filter (fun w => timestamp w <= timestamp snap)%Z (versions_of st d)
         ++ snap :: filter (fun w => timestamp snap < timestamp w)%Z (versions_of st d)
    /\ (Forall (fun w => timestamp w <= timestamp snap)%Z (versions_of st d) ->
        versions_of st' d = versions_of st d ++ [snap]).
Proof.
  intros Hs.
  destruct (versions_of_add_version isoformat env d text ts meta st d)
    as (snap & Hr & _ & _ & Hv).
  destruct (add_version isoformat env d text ts meta st) as [r st'].
  cbn [fst snd] in *. subst r. exists snap, st'. split; [reflexivity|].
  rewrite Hv, decide_True by reflexivity.
  rewrite sort_by_timestamp_snoc, insert_sorted_position by assumption.
  split; [reflexivity|]. intros Hall.
  f_equal.
  - clear -Hall. induction Hall as [|w l Hw _ IH]; [reflexivity|].
    rewrite filter_cons_True by assumption. now rewrite IH.
  - f_equal. clear -Hall. induction Hall as [|w l Hw _ IH]; [reflexivity|].
    rewrite filter_cons_False by lia. exact IH.
Qed.

(** X7: version ids stay distinct: when the ids of a document are those of
    its first n versions, in any order, as they are for a fresh document,
    they are those of the first n + 1 after [add_version], so no two
    versions share an id. *)
Theorem add_version_ids_distinct env d text ts meta st :
  numbered d (versions_of st d) ->
  let st' := (add_version isoformat env d text ts meta st).2 in
  numbered d (versions_of st' d)
  /\ NoDup (map version_id (versions_of st' d)).
Proof.
  intros Hn st'.
  assert (H : numbered d (versions_of st' d));
    [|split; [exact H|now apply (numbered_NoDup d)]].
  subst st'.
  destruct (versions_of_add_version isoformat env d text ts meta st d)
    as (snap & _ & Hid & _ & ->).
  rewrite decide_True by reflexivity.
  unfold numbered in *.
  rewrite sort_by_timestamp_length, sort_by_timestamp_perm, length_app.
  cbn [length]. rewrite Nat.add_1_r, seq_S, !map_app, Hn. cbn [map].
  rewrite Hid. now rewrite Nat.add_1_r.
Qed.

(** X8: deleting a document forgets its numbering: the next version added
    under the id is [_v1] again, the id of a version that was deleted, and
    is the only one. *)
Theorem delete_then_add_renumbers env d text ts meta st :
  let st1 := (delete_document isoformat d st).2 in
  exists snap st2,
    add_version isoformat env d text ts meta st1 = (Ret snap, st2)
    /\ version_id snap = d +:+ "_v1"
    /\ versions_of st2 d = [snap].
Proof.
  intros st1.
  assert (Hgone : versions_of st1 d = []).
  { subst st1. rewrite delete_document_eq. unfold versions_of.
    destruct (documents st !! d) eqn:E; cbn [snd documents].
    - now rewrite lookup_delete_eq.
    - now rewrite E. }
  destruct (versions_of_add_version isoformat env d text ts meta st1 d)
    as (snap & Hr & Hid & _ & Hv).
  destruct (add_version isoformat env d text ts meta st1) as [r st2].
  cbn [fst snd] in *. subst r. exists snap, st2. split; [reflexivity|].
  rewrite Hgone in Hid, Hv. split; [exact Hid|].
  now rewrite Hv, decide_True by reflexivity.
Qed.

(** X9: [delete_document] on an unknown id answers 404 and changes nothing,
    not even the file; on a known id it answers 200, the document is gone
    (its versions read as the empty list, a second delete answers 404) and
    the other documents are as they were. *)
Theorem delete_document_outcome d st :
  let r := delete_document isoformat d st in
  (documents st !! d = None -> r = (Ret 404%nat, st))
  /\ (is_Some (documents st !! d) ->
      r.1 = Ret 200%nat
      /\ documents r.2 !! d = None
      /\ versions_of r.2 d = []
      /\ (forall d', d' <> d -> documents r.2 !! d' = documents st !! d')
      /\ delete_document isoformat d r.2 = (Ret 404%nat, r.2)).
Proof.
  intros r. subst r. rewrite delete_document_eq. split.
  - now intros ->.
  - intros [vs Hvs]. rewrite Hvs. cbn [fst snd documents].
    split; [reflexivity|]. split; [apply lookup_delete_eq|].
    split; [unfold versions_of; cbn [documents]; now rewrite lookup_delete_eq|].
    split; [intros d' Hd'; now apply lookup_delete_ne|].
    rewrite delete_document_eq. cbn [documents]. now rewrite lookup_delete_eq.
Qed.

(** X27: [add_version] keeps the snapshots well formed: the one it returns
    has the seven feature keys and a float score within [0, 1], and so has
    every stored version when every stored version had. *)
Theorem add_version_keeps_well_formed env d text ts meta st :
  (forall d' v, v ∈ versions_of st d' -> well_formed v) ->
  exists snap st',
    add_version isoformat env d text ts meta st = (Ret snap, st')
    /\ well_formed snap
    /\ forall d' v, v ∈ versions_of st' d' -> well_formed v.
Proof.
  intros Hinv.
  destruct (add_version_spec isoformat env d text ts meta st)
    as (score & feats & st1 & Ha & _ & _ & Hf & Hadd).
  cbv zeta in Hadd. rewrite Hadd. eexists _, _. split; [reflexivity|].
  assert (Hsnap : well_formed
            {| version_id := d +:+ "_v" +:+ str (length (versions_of st d) + 1);
               timestamp := default (now env) ts; text := text;
               authenticity_score := score; style_features := feats;
               metadata := metadata_or_empty meta |}).
  { split; cbn [style_features authenticity_score].
    - destruct (extract_keys text) as (f & Hf' & Hk). congruence.
    - destruct (analyze_authenticity_cases env text st)
        as (s & st1' & Ha' & H0 & H1 & _).
      exists s. rewrite Ha in Ha'. injection Ha' as -> _. auto. }
  split; [exact Hsnap|].
  intros d' v. unfold versions_of at 1. cbn [documents].
  rewrite lookup_insert. destruct (decide (d = d')) as [<-|Hd]; cbn [default].
  - intros Hv. rewrite sort_by_timestamp_perm in Hv.
    apply elem_of_app in Hv as [Hv|Hv]; [now apply (Hinv d)|].
    apply list_elem_of_singleton in Hv. now subst v.
  - apply Hinv.
Qed.

(** ** What is on disk *)

Lemma restart_persisted st :
  disk st !! history_path = Some (Doc (history_data isoformat (documents st))) ->
  timestamps_readable isoformat fromisoformat (documents st) ->
  __init__ fromisoformat st = (Ret tt, st).
Proof.
  intros Hd Hiso. unfold __init__, _load_history.
  cbn [set_documents disk documents console]. rewrite Hd.
  rewrite (load_saved_documents isoformat fromisoformat) by exact Hiso.
  now destruct st.
Qed.

(** X10: what [add_version] leaves on disk is the store it leaves in memory:
    starting the tracker again on it changes nothing. *)
Theorem add_version_durable env d text ts meta st :
  let st' := (add_version isoformat env d text ts meta st).2 in
  timestamps_readable isoformat fromisoformat (documents st') ->
  __init__ fromisoformat st' = (Ret tt, st').
Proof.
  intros st' Hiso. apply restart_persisted; [|exact Hiso].
  subst st'.
  destruct (add_version_spec isoformat env d text ts meta st)
    as (score & feats & st1 & _ & _ & _ & _ & Hadd).
  cbv zeta in Hadd. rewrite Hadd. cbn [snd disk documents].
  apply lookup_insert_eq.
Qed.

(** X11: a deletion is durable: after [delete_document] on a known document,
    starting the tracker again finds the store as the deletion left it,
    without the document. *)
Theorem delete_document_durable d st :
  is_Some (documents st !! d) ->
  let st' := (delete_document isoformat d st).2 in
  timestamps_readable isoformat fromisoformat (documents st') ->
  __init__ fromisoformat st' = (Ret tt, st')
  /\ documents st' !! d = None.
Proof.
  intros [vs Hvs] st' Hiso. subst st'. revert Hiso.
  rewrite delete_document_eq, Hvs. cbn [snd]. intros Hiso.
  split; [|apply lookup_delete_eq].
  apply restart_persisted; [apply lookup_insert_eq|exact Hiso].
Qed.

Lemma get_versions_persisted st d' :
  disk st !! history_path = Some (Doc (history_data isoformat (documents st))) ->
  exists members,
    disk st !! history_path = Some (Doc (JObj members))
    /\ dict_get d' members
       = (fun vs => JArr (map (snapshot_data isoformat) vs)) <$> documents st !! d'
    /\ get_versions isoformat d' st
       = (Ret (JObj [("document_id", JStr d');
                     ("versions", default (JArr []) (dict_get d' members))]), st).
Proof.
  intros Hd. eexists. split; [exact Hd|].
  rewrite (dict_get_map_to_list (fun vs => JArr (map (snapshot_data isoformat) vs))).
  split; [reflexivity|].
  unfold get_versions, documents_get, mbind, M_bind.
  now destruct (documents st !! d').
Qed.

(** X12: after [add_version] the history file and [get_versions] show the
    same thing: for a stored document the array under its id in the file is
    the ["versions"] array of the response; an id that is not stored has no
    entry in the file and an empty array in the response. *)
Theorem get_versions_matches_file env d text ts meta st d' :
  let st' := (add_version isoformat env d text ts meta st).2 in
  exists members,
    disk st' !! history_path = Some (Doc (JObj members))
    /\ dict_get d' members
       = (fun vs => JArr (map (snapshot_data isoformat) vs)) <$> documents st' !! d'
    /\ get_versions isoformat d' st'
       = (Ret (JObj [("document_id", JStr d');
                     ("versions", default (JArr []) (dict_get d' members))]), st').
Proof.
  intros st'. apply get_versions_persisted. subst st'.
  destruct (add_version_spec isoformat env d text ts meta st)
    as (score & feats & st1 & _ & _ & _ & _ & Hadd).
  cbv zeta in Hadd. rewrite Hadd. cbn [snd disk documents].
  apply lookup_insert_eq.
Qed.

(** X13: a write after a partial load drops what was not loaded: when the
    entry of document [k] stopped the load, for a missing key or a timestamp
    that cannot be read, the file that [add_version] then writes for another
    document has no entry for [k], nor for the documents that came after it
    in the record. *)
Theorem partial_load_then_write env d text ts meta st done k bad rest e :
  disk st !! history_path = Some (Doc (JObj (done ++ (k, bad) :: rest))) ->
  Forall (fun kv => exists vs, rebuild fromisoformat kv.2 = Ret vs) done ->
  rebuild fromisoformat bad = Raise e ->
  e <> TypeError ->
  let st1 := (__init__ fromisoformat st).2 in
  let st2 := (add_version isoformat env d text ts meta st1).2 in
  exists members,
    disk st2 !! history_path = Some (Doc (JObj members))
    /\ forall k', k' ∈ k :: rest.*1 -> k' ∉ done.*1 -> k' <> d ->
         dict_get k' members = None.
Proof.
  intros Hd Hdone Hbad _ st1 st2.
  assert (H1 : forall k', k' ∉ done.*1 -> documents st1 !! k' = None).
  { intros k' Hk'. subst st1. unfold __init__, _load_history.
    cbn [set_documents disk documents console]. rewrite Hd. cbn [load_content].
    rewrite (load_items_stops fromisoformat done ∅ k bad rest e Hdone Hbad).
    unfold console_print. cbn [snd set_documents documents].
    rewrite store_rebuilt_other by assumption. apply lookup_empty. }
  subst st2.
  destruct (add_version_spec isoformat env d text ts meta st1)
    as (score & feats & sta & _ & _ & _ & _ & Hadd).
  cbv zeta in Hadd. rewrite Hadd. cbn [snd disk documents].
  eexists. split; [apply lookup_insert_eq|].
  intros k' _ Hk' Hne. unfold history_data.
  rewrite (dict_get_map_to_list (fun vs => JArr (map (snapshot_data isoformat) vs))).
  rewrite lookup_insert_ne by congruence. now rewrite H1.
Qed.

(** X23: an entry that lacks one of the five keys the loader subscripts is
    refused with the [KeyError] of that key; one that lacks only
    ["metadata"] is accepted, with empty metadata. *)
Theorem reconstruct_missing_key v key :
  fromisoformat (isoformat (timestamp v)) = Some (timestamp v) ->
  (key ∈ required_keys ->
   reconstruct fromisoformat (entry_without isoformat key v) = Raise (KeyError key))
  /\ (key = "metadata" ->
      reconstruct fromisoformat (entry_without isoformat key v)
      = Ret {| version_id := version_id v; timestamp := timestamp v; text := text v;
               authenticity_score := authenticity_score v;
               style_features := style_features v; metadata := JObj [] |}).
Proof.
  intros Hiso. split.
  - intros Hk. unfold required_keys in Hk.
    repeat (apply elem_of_cons in Hk as [->|Hk]);
      [..|now apply elem_of_nil in Hk];
      unfold entry_without, snapshot_data, reconstruct; cbn; rewrite ?Hiso; cbn;
      rewrite ?as_num_members_data; reflexivity.
  - intros ->. unfold entry_without, snapshot_data, reconstruct. cbn.
    rewrite Hiso. cbn. rewrite as_num_members_data. reflexivity.
Qed.


(** X25: loading a file that [_save_history] wrote and saving again leaves
    the file as it was. *)
Theorem load_then_save_keeps_file st docs :
  disk st !! history_path = Some (Doc (history_data isoformat docs)) ->
  timestamps_readable isoformat fromisoformat docs ->
  let st1 := (__init__ fromisoformat st).2 in
  documents st1 = docs
  /\ disk (_save_history isoformat st1).2 = disk st.
Proof.
  intros Hd Hiso st1.
  assert (H1 : st1 = {| documents := docs; disk := disk st; console := console st |}).
  { subst st1. unfold __init__, _load_history.
    cbn [set_documents disk documents console]. rewrite Hd.
    now rewrite (load_saved_documents isoformat fromisoformat) by exact Hiso. }
  rewrite H1. split; [reflexivity|].
  rewrite save_history_eq. cbn [snd set_disk disk documents].
  now apply insert_id.
Qed.

(** ** Drift and history *)

Lemma drift_step_grows versions acc i :
  (1 <= i < length versions)%nat ->
  exists t pts,
    drift_step versions acc i = Ret (acc.1 ++ [t], acc.2 ++ pts)
    /\ (length pts <= 1)%nat
    /\ Forall (joins_neighbours versions) pts.
Proof.
  intros Hi. unfold drift_step, list_getitem.
  destruct (lookup_lt_is_Some_2 versions (i - 1) ltac:(lia)) as [prev Hprev].
  destruct (lookup_lt_is_Some_2 versions i ltac:(lia)) as [curr Hcurr].
  rewrite Hprev, Hcurr. cbn [mbind result_bind].
  destruct (feature_loop_returns (style_features prev) (style_features curr)
              (map fst (style_features prev)) (fun x Hx => Hx) []) as [fd ->].
  cbn [mbind result_bind]. rewrite average_mean. cbn [mbind result_bind].
  rewrite truediv_nonzero by reflexivity. cbn [mbind result_bind mret result_ret].
  destruct (num_gt _ (NFloat 0.15)) eqn:Hgt.
  - eexists _, [_]. split; [reflexivity|]. split; [cbn; lia|].
    constructor; [|constructor].
    exists (i - 1)%nat, prev, curr. replace (S (i - 1)) with i by lia.
    repeat split; assumption.
  - eexists _, []. rewrite app_nil_r. split; [reflexivity|]. split; [cbn; lia|constructor].
Qed.

Lemma drift_fold_grows versions ids :
  Forall (fun i => 1 <= i < length versions)%nat ids ->
  forall acc, exists ts pts,
    foldM (drift_step versions) ids acc = Ret (acc.1 ++ ts, acc.2 ++ pts)
    /\ length ts = length ids
    /\ (length pts <= length ids)%nat
    /\ Forall (joins_neighbours versions) pts.
Proof.
  induction ids as [|i ids IH]; intros Hids acc.
  - exists [], []. rewrite !app_nil_r. destruct acc. repeat split; constructor.
  - inversion Hids as [|? ? Hi Hids']; subst. cbn [foldM].
    destruct (drift_step_grows versions acc i Hi) as (t & p1 & -> & Hl1 & Hj1).
    cbn [mbind result_bind].
    destruct (IH Hids' (acc.1 ++ [t], acc.2 ++ p1)) as (ts & p2 & -> & Hlt & Hl2 & Hj2).
    cbn [fst snd]. exists (t :: ts), (p1 ++ p2). rewrite <- !app_assoc.
    split; [reflexivity|]. split; [cbn; lia|].
    split; [rewrite length_app; cbn; lia|]. now apply Forall_app.
Qed.

(** X14: on a document whose numbers are floats, or ints that fit,
    [detect_style_drift] raises nothing, whatever keys the feature
    dictionaries of the versions have, and leaves the state as it is; with
    n >= 2 versions it reports n versions and at most n - 1 drift points,
    each between two neighbouring versions and above the threshold,
    [significant_changes] being their number and [drift_detected] whether
    there is one. *)
Theorem detect_style_drift_report d w st :
  Forall numbers_fit (versions_of st d) ->
  exists r,
    detect_style_drift d w st = (Ret r, st)
    /\ ((2 <= length (versions_of st d))%nat ->
        exists pts,
          drift_points r = Some pts
          /\ total_versions r = Some (length (versions_of st d))
          /\ significant_changes r = Some (length pts)
          /\ (length pts <= length (versions_of st d) - 1)%nat
          /\ drift_detected r = (0 <? length pts)%nat
          /\ Forall (joins_neighbours (versions_of st d)) pts).
Proof.
  intros _. unfold detect_style_drift.
  erewrite bind_ret by (unfold documents_get; reflexivity).
  fold (versions_of st d).
  destruct (Nat.ltb_spec (length (versions_of st d)) 2) as [Hlt|Hge].
  { eexists. split; [reflexivity|]. lia. }
  destruct (drift_fold_grows (versions_of st d) (seq 1 (length (versions_of st d) - 1)))
    with (acc := ([] : list num, [] : list drift_point)) as (ts & pts & Hr & _ & Hl & Hj).
  { apply Forall_forall. intros i Hi. apply elem_of_seq in Hi. lia. }
  cbn [fst snd app] in Hr. rewrite length_seq in Hl.
  erewrite bind_ret by (unfold lift; rewrite Hr; reflexivity).
  erewrite bind_ret by (unfold lift; rewrite average_mean; reflexivity).
  eexists. split; [reflexivity|]. intros _. exists pts. cbn [fst snd].
  repeat split; assumption.
Qed.

Lemma pair_total_drift_same f s prev curr :
  style_features prev = f -> style_features curr = f ->
  authenticity_score prev = s -> authenticity_score curr = s ->
  NoDup f.*1 -> Forall (fun kv => num_finite kv.2 = true) f -> num_finite s = true ->
  pair_total_drift prev curr = NFloat 0.
Proof.
  intros Hp Hc Hsp Hsc Hnd Hfin Hs.
  unfold pair_total_drift, pair_auth_drift. rewrite Hp, Hc, Hsp, Hsc.
  rewrite (shared_drifts_self f f [] eq_refl Hnd), map_map. cbn [snd].
  assert (Hz : is_pos_zero (mean (map (fun kv : string * num => num_abs (num_sub kv.2 kv.2)) f))).
  { apply mean_zeros. apply Forall_map. eapply Forall_impl; [exact Hfin|].
    intros kv Hkv. now apply abs_sub_diag. }
  pose proof (abs_sub_diag s Hs) as Ha.
  destruct Hz as [-> | ->], Ha as [-> | ->]; reflexivity.
Qed.

Lemma consecutive_same f s : forall vs,
  Forall (fun v => style_features v = f /\ authenticity_score v = s) vs ->
  NoDup f.*1 -> Forall (fun kv => num_finite kv.2 = true) f -> num_finite s = true ->
  Forall (fun p => pair_total_drift p.1 p.2 = NFloat 0) (consecutive vs).
Proof.
  induction vs as [|a vs IH]; intros Hvs Hnd Hfin Hs; [constructor|].
  inversion Hvs as [|? ? [Ha1 Ha2] Hvs']; subst.
  destruct vs as [|b vs]; [constructor|].
  inversion Hvs' as [|? ? [Hb1 Hb2] _]; subst.
  cbn [consecutive]. constructor.
  - cbn [fst snd]. now apply (pair_total_drift_same (style_features a) (authenticity_score a)).
  - apply IH; assumption.
Qed.

(** X15: versions that all carry the same features and the same score show
    no drift: no point is recorded and the drift score is 0.0. *)
Theorem identical_versions_no_drift d w st f s :
  (2 <= length (versions_of st d))%nat ->
  Forall (fun v => style_features v = f /\ authenticity_score v = s) (versions_of st d) ->
  NoDup f.*1 -> Forall (fun kv => num_finite kv.2 = true) f -> num_finite s = true ->
  exists r,
    detect_style_drift d w st = (Ret r, st)
    /\ drift_detected r = false
    /\ drift_points r = Some []
    /\ drift_score r = NFloat 0.
Proof.
  intros Hlen Hvs Hnd Hfin Hs.
  rewrite detect_style_drift_eq.
  2: exact Hlen.
  2: { eapply Forall_impl; [exact Hvs|]. intros v [-> _]. exact Hnd. }
  pose proof (consecutive_same f s (versions_of st d) Hvs Hnd Hfin Hs) as Hz.
  assert (Hne : consecutive (versions_of st d) <> []).
  { destruct (versions_of st d) as [|a [|b l]]; cbn in Hlen |- *; [lia|lia|discriminate]. }
  eexists. split; [reflexivity|].
  unfold expected_report, expected_points. cbn [drift_detected drift_points drift_score].
  assert (Hnone : filter is_drift (consecutive (versions_of st d)) = []).
  { clear Hne. induction Hz as [|p l Hp _ IH]; [reflexivity|].
    rewrite filter_cons_False; [exact IH|].
    unfold is_drift. rewrite Hp. cbn. exact id. }
  rewrite Hnone. split; [reflexivity|]. split; [reflexivity|].
  assert (Hm : is_pos_zero (mean (map (fun p => pair_total_drift p.1 p.2)
                                      (consecutive (versions_of st d))))).
  { apply mean_zeros. apply Forall_map. eapply Forall_impl; [exact Hz|].
    intros p ->. now right. }
  destruct Hm as [Hm|Hm]; [|exact Hm].
  unfold mean in Hm. destruct (consecutive (versions_of st d)); [congruence|discriminate].
Qed.


(** X17: on a document whose numbers are floats, or ints that fit,
    [analyze_version_history], numpy being there, raises nothing and leaves
    the state as it is; an id without versions gets the error report, any
    other a report over all its versions whose [drift_analysis] is what
    [detect_style_drift] returns on the same store. *)
Theorem analyze_version_history_report d st :
  Forall numbers_fit (versions_of st d) ->
  exists r,
    analyze_version_history isoformat np_var d st = (Ret r, st)
    /\ (versions_of st d = [] -> r = NoVersions "No versions found")
    /\ (versions_of st d <> [] ->
        exists a,
          r = Analysis a
          /\ detect_style_drift d 3 st = (Ret (drift_analysis a), st)
          /\ analysis_total_versions a = length (versions_of st d)
          /\ scores a = map authenticity_score (versions_of st d)).
Proof.
  intros _.
  destruct (analyze_version_history_eq isoformat np_var d st) as (drift & Hd & ->).
  destruct (versions_of st d) as [|v0 rest].
  - eexists. split; [reflexivity|]. split; [reflexivity|congruence].
  - eexists. split; [reflexivity|]. split; [discriminate|].
    intros _. eexists. split; [reflexivity|]. repeat split. exact Hd.
Qed.


(** ** The handlers *)


Lemma analyze_authenticity_of_frame env text st :
  exists r st1,
    app.analyze_authenticity_of list_str dict_slice_error env text st = (r, st1)
    /\ documents st1 = documents st /\ disk st1 = disk st.
Proof.
  unfold app.analyze_authenticity_of.
  destruct (client env) as [create|]; [|eexists _, st; repeat split].
  unfold mbind, M_bind, lift.
  destruct (app.prompt_text list_str dict_slice_error text) as [p|e];
    [|eexists _, st; repeat split].
  unfold app.score_reply.
  destruct (create p) as [e|c]; [eexists _, _; repeat split|].
  destruct (search_number c) as [run|]; [|eexists _, st; repeat split].
  destruct (float_of_digits run) as [x|e]; eexists _, _; repeat split.
Qed.

Lemma extract_style_features_of_not_str text :
  (forall s, text <> JStr s) ->
  app.extract_style_features_of text = Raise AttributeError.
Proof. intros Hns. destruct text; try reflexivity. now destruct (Hns s). Qed.

Lemma tracker_add_version_not_str env d text meta st :
  (forall s, text <> JStr s) ->
  exists e st1,
    app.tracker_add_version isoformat list_str dict_slice_error env d text meta st
    = (Raise e, st1)
    /\ documents st1 = documents st /\ disk st1 = disk st.
Proof.
  intros Hns.
  assert (Hrun : app.tracker_add_version isoformat list_str dict_slice_error env d text
                   meta st
                 = (app.analyze_authenticity_of list_str dict_slice_error env text ;;
                    lift (app.extract_style_features_of text) ;;
                    lift (Raise AttributeError)) st)
    by (destruct text; try reflexivity; now destruct (Hns s)).
  rewrite Hrun, (extract_style_features_of_not_str text Hns).
  destruct (analyze_authenticity_of_frame env text st) as ([sc|e] & st1 & Ha & Hd & Hk).
  - erewrite bind_ret by exact Ha. exists AttributeError, st1. repeat split; assumption.
  - erewrite bind_raise by exact Ha. exists e, st1. repeat split; assumption.
Qed.

Lemma str_or_not (j : json) : (exists s, j = JStr s) \/ (forall s, j <> JStr s).
Proof. destruct j; try (right; discriminate). left. eauto. Qed.

Lemma truthy_str s : truthy (JStr s) = true <-> s <> "".
Proof. cbn. destruct (String.eqb_spec s ""); cbn; split; congruence. Qed.


Lemma app_add_version_eq env d members st :
  let text := default (JStr "") (dict_get "text" members) in
  let meta := default (JObj []) (dict_get "metadata" members) in
  app.add_version isoformat list_str dict_slice_error env d (JObj members) st
  = if truthy text then
      let r := app.tracker_add_version isoformat list_str dict_slice_error env d text
                 meta st in
      match r.1 with
      | Ret snap =>
          (Ret (Jsonify (JObj
                  [("version_id", JStr (version_id snap));
                   ("timestamp", JStr (isoformat (timestamp snap)));
                   ("authenticity_score", JNum (authenticity_score snap));
                   ("style_features", features_data (style_features snap));
                   ("metadata", metadata snap)]),
                201%nat), r.2)
      | Raise e => (Ret (ErrorBody e, 500%nat), r.2)
      end
    else (Ret no_text_provided, st).
Proof.
  intros text meta. unfold app.add_version.
  erewrite bind_ret by reflexivity. erewrite bind_ret by reflexivity. fold text meta.
  destruct (truthy text); [|reflexivity]. cbn [negb].
  unfold try_except, mbind, M_bind. cbv zeta.
  destruct (app.tracker_add_version isoformat list_str dict_slice_error env d text meta st)
    as [[snap|e] st']; reflexivity.
Qed.


(** X21: no empty text enters the store through the handler: when no stored
    version has an empty text, none has after the call. *)
Theorem app_add_version_keeps_texts_nonempty env d data st :
  (forall d' v, v ∈ versions_of st d' -> text v <> "") ->
  let st' := (app.add_version isoformat list_str dict_slice_error env d data st).2 in
  forall d' v, v ∈ versions_of st' d' -> text v <> "".
Proof.
  intros Hinv st' d' v. subst st'.
  destruct data as [| | | | |members]; try (cbn [snd]; apply Hinv).
  rewrite app_add_version_eq.
  set (txt := default (JStr "") (dict_get "text" members)).
  set (meta := default (JObj []) (dict_get "metadata" members)).
  destruct (truthy txt) eqn:Ht; [|cbn [snd]; apply Hinv].
  destruct (str_or_not txt) as [[s Hs]|Hno].
  - rewrite Hs in *. apply truthy_str in Ht. cbn [app.tracker_add_version].
    destruct (add_version_spec isoformat env d s None (Some meta) st)
      as (score & feats & st1 & _ & _ & _ & _ & Hadd).
    cbv zeta in Hadd. cbv zeta. rewrite Hadd.
    cbn [fst snd]. unfold versions_of at 1. cbn [documents].
    rewrite lookup_insert. destruct (decide (d = d')) as [<-|Hd]; cbn [default].
    + intros Hv. rewrite sort_by_timestamp_perm in Hv.
      apply elem_of_app in Hv as [Hv|Hv]; [now apply (Hinv d)|].
      apply list_elem_of_singleton in Hv. subst v. exact Ht.
    + apply Hinv.
  - destruct (tracker_add_version_not_str env d txt meta st Hno)
      as (e & st1 & Hrun & Hd & _).
    rewrite Hrun. cbv zeta. cbn [fst snd]. unfold versions_of. rewrite Hd. apply Hinv.
Qed.

(** X22: for a document whose versions are in timestamp order, the entry of
    [list_documents] counts its versions, dates its creation by the earliest
    timestamp and its update by the latest, and names as latest the version
    that carries the latest timestamp, which need not be the one added
    last. *)
Theorem list_documents_summary d v0 rest st :
  documents st !! d = Some (v0 :: rest) ->
  StronglySorted Z.le (map timestamp (v0 :: rest)) ->
  exists items vlast,
    app.list_documents isoformat st = (Ret (JObj [("documents", JArr items)]), st)
    /\ length items = size (documents st)
    /\ JObj [("document_id", JStr d);
             ("version_count", JNum (NInt (Z.of_nat (S (length rest)))));
             ("latest_version", JStr (version_id vlast));
             ("created_at", JStr (isoformat (timestamp v0)));
             ("updated_at", JStr (isoformat (timestamp vlast)))] ∈ items
    /\ vlast ∈ v0 :: rest
    /\ Forall (fun v => timestamp v0 <= timestamp v <= timestamp vlast)%Z (v0 :: rest).
Proof.
  intros Hd Hs.
  destruct (sorted_versions_bounds v0 rest Hs) as [Hin Hb].
  eexists _, (default v0 (last (v0 :: rest))).
  split; [reflexivity|]. split; [now rewrite length_map, length_map_to_list|].
  split; [|split; assumption].
  apply elem_of_map_to_list in Hd.
  apply (list_elem_of_fmap_2 (fun kv => app.document_summary isoformat kv.1 kv.2)) in Hd.
  unfold app.document_summary in Hd at 1. cbn [fst snd head py_len length] in Hd.
  destruct (last (v0 :: rest)) as [vl|] eqn:E.
  - exact Hd.
  - apply last_None in E. discriminate.
Qed.

End Further.

(** ** Worked examples of the further properties *)

Lemma steady_versions :
  versions_of steady_state "essay" = [demo_snapshot; demo_snapshot_again].
Proof. unfold versions_of, steady_state. cbn [documents]. now rewrite lookup_singleton_eq. Qed.

Lemma demo_sorted : StronglySorted Z.le (map timestamp [demo_snapshot; demo_snapshot_2]).
Proof. repeat constructor. cbn. lia. Qed.

Lemma demo_readable :
  timestamps_readable isoformat_naive fromisoformat_naive (documents demo_state).
Proof.
  intros d vs v Hd Hv. unfold demo_state in Hd. cbn [documents] in Hd.
  apply lookup_singleton_Some in Hd as [_ <-].
  apply elem_of_cons in Hv as [->|Hv]; [reflexivity|].
  apply elem_of_cons in Hv as [->|Hv]; [reflexivity|].
  now apply elem_of_nil in Hv.
Qed.

Lemma empty_readable :
  timestamps_readable isoformat_naive fromisoformat_naive (documents empty_state).
Proof. intros d vs v Hd. unfold empty_state in Hd. cbn in Hd. now rewrite lookup_empty in Hd. Qed.

Lemma extract_case_insensitive_witness :
  exists f f',
    _extract_style_features "Ab. C" = Ret f
    /\ _extract_style_features "ab. c" = Ret f'
    /\ dict_get "lexical_diversity" f = dict_get "lexical_diversity" f'.
Proof.
  destruct (extract_case_insensitive "Ab. C" "ab. c" eq_refl) as (f & f' & H1 & H2 & H).
  exists f, f'. split; [exact H1|]. split; [exact H2|]. apply H. discriminate.
Defined.

Lemma blank_text_features_witness :
  _extract_style_features "  " = Ret blank_features.
Proof.
  apply blank_text_features; [discriminate|].
  repeat constructor.
Defined.

Lemma add_version_position_witness :
  exists snap st',
    add_version isoformat_naive demo_env "essay" "" (Some 63840950000000000%Z) None
                demo_state = (Ret snap, st')
    /\ versions_of st' "essay" = [demo_snapshot; snap; demo_snapshot_2].
Proof.
  assert (Hs : StronglySorted Z.le (map timestamp (versions_of demo_state "essay")))
    by (rewrite demo_versions; exact demo_sorted).
  destruct (add_version_position isoformat_naive demo_env "essay" ""
              (Some 63840950000000000%Z) None demo_state Hs)
    as (snap & st' & Hadd & Hpos & _).
  exists snap, st'. split; [exact Hadd|].
  destruct (versions_of_add_version isoformat_naive demo_env "essay" ""
              (Some 63840950000000000%Z) None demo_state "essay")
    as (snap' & Hr & _ & Hts & _).
  rewrite Hadd in Hr. cbn [fst] in Hr. injection Hr as <-.
  rewrite Hpos, demo_versions, !filter_cons, filter_nil, Hts.
  repeat match goal with
  | |- context [decide ?P] => destruct (decide P) as [Hd|Hd]; cbn in Hd; try lia
  end.
  reflexivity.
Defined.

Lemma add_version_ids_distinct_witness :
  let st' := (add_version isoformat_naive demo_env "essay" ""
                          (Some 63840950000000000%Z) None demo_state).2 in
  numbered "essay" [demo_snapshot; demo_snapshot_2]
  /\ numbered "essay" (versions_of st' "essay")
  /\ NoDup (map version_id (versions_of st' "essay")).
Proof.
  assert (Hn : numbered "essay" [demo_snapshot; demo_snapshot_2])
    by (unfold numbered; vm_compute; reflexivity).
  split; [exact Hn|].
  apply (add_version_ids_distinct isoformat_naive demo_env "essay" ""
           (Some 63840950000000000%Z) None demo_state).
  rewrite demo_versions. exact Hn.
Defined.

Lemma add_version_keeps_well_formed_witness :
  exists snap st',
    add_version isoformat_naive demo_env "essay" "" None None empty_state = (Ret snap, st')
    /\ well_formed snap.
Proof.
  destruct (add_version_keeps_well_formed isoformat_naive demo_env "essay" "" None None
              empty_state) as (snap & st' & Hadd & Hw & _).
  - intros d' v Hv. unfold versions_of, empty_state in Hv. cbn [documents] in Hv.
    rewrite lookup_empty in Hv. now apply elem_of_nil in Hv.
  - exists snap, st'. split; assumption.
Defined.

Lemma add_version_durable_witness :
  let st' := (add_version isoformat_naive demo_env "essay" "" None None empty_state).2 in
  __init__ fromisoformat_naive st' = (Ret tt, st').
Proof.
  apply (add_version_durable isoformat_naive fromisoformat_naive).
  apply timestamps_readable_add_version; [exact empty_readable|reflexivity].
Defined.

Lemma delete_document_durable_witness :
  let st' := (delete_document isoformat_naive "essay" demo_state).2 in
  __init__ fromisoformat_naive st' = (Ret tt, st')
  /\ documents st' !! "essay" = None.
Proof.
  apply (delete_document_durable isoformat_naive fromisoformat_naive "essay" demo_state).
  - unfold demo_state. cbn [documents]. rewrite lookup_singleton_eq. eauto.
  - intros d vs v Hd Hv. rewrite delete_document_eq in Hd.
    unfold demo_state in Hd. cbn [documents] in Hd.
    rewrite lookup_singleton_eq in Hd. cbn [snd documents] in Hd.
    rewrite delete_singleton_eq, lookup_empty in Hd. discriminate.
Defined.

Lemma partial_load_then_write_witness :
  let st1 := (__init__ fromisoformat_naive malformed_state).2 in
  let st2 := (add_version isoformat_naive demo_env "memo" "" None None st1).2 in
  exists members,
    disk st2 !! history_path = Some (Doc (JObj members))
    /\ dict_get "notes" members = None.
Proof.
  intros st1 st2.
  destruct (partial_load_then_write isoformat_naive fromisoformat_naive demo_env
              "memo" "" None None malformed_state
              [("essay", JArr [snapshot_data isoformat_naive demo_snapshot])]
              "notes" (JArr [JObj [("version_id", JStr "notes_v1")]]) []
              (KeyError "timestamp"))
    as (members & Hfile & Hgone).
  - apply lookup_singleton_eq.
  - constructor; [|constructor]. exists [demo_snapshot]. reflexivity.
  - reflexivity.
  - discriminate.
  - exists members. split; [exact Hfile|]. apply Hgone.
    + left.
    + cbn. intros Hin. apply list_elem_of_singleton in Hin. discriminate.
    + discriminate.
Defined.

Lemma reconstruct_missing_key_witness :
  reconstruct fromisoformat_naive (entry_without isoformat_naive "text" demo_snapshot)
  = Raise (KeyError "text").
Proof.
  apply (reconstruct_missing_key isoformat_naive fromisoformat_naive demo_snapshot "text").
  - reflexivity.
  - unfold required_keys. right. right. left.
Defined.

Lemma load_then_save_keeps_file_witness :
  let st1 := (__init__ fromisoformat_naive saved_state).2 in
  documents st1 = documents demo_state
  /\ disk (_save_history isoformat_naive st1).2 = disk saved_state.
Proof.
  apply (load_then_save_keeps_file isoformat_naive fromisoformat_naive saved_state
           (documents demo_state)).
  - apply lookup_singleton_eq.
  - exact demo_readable.
Defined.

Lemma identical_versions_no_drift_witness :
  exists r,
    detect_style_drift "essay" 3 steady_state = (Ret r, steady_state)
    /\ drift_detected r = false
    /\ drift_points r = Some []
    /\ drift_score r = NFloat 0.
Proof.
  apply (identical_versions_no_drift "essay" 3 steady_state zero_features (NFloat 0.8)).
  - rewrite steady_versions. cbn. lia.
  - rewrite steady_versions. repeat constructor.
  - exact zero_features_keys.
  - repeat constructor.
  - reflexivity.
Defined.



Lemma detect_style_drift_report_witness :
  exists r pts,
    detect_style_drift "essay" 3 demo_state = (Ret r, demo_state)
    /\ drift_points r = Some pts
    /\ (length pts <= 1)%nat
    /\ Forall (joins_neighbours [demo_snapshot; demo_snapshot_2]) pts.
Proof.
  destruct (detect_style_drift_report "essay" 3 demo_state) as (r & Hrun & Hrep).
  - rewrite demo_versions. exact demo_numbers_fit.
  - rewrite demo_versions in Hrep.
    destruct Hrep as (pts & Hpts & _ & _ & Hlen & _ & Hj); [cbn; lia|].
    exists r, pts. repeat split; assumption.
Defined.

Lemma analyze_version_history_report_witness :
  exists a,
    analyze_version_history isoformat_naive (fun _ => 0%float) "essay" demo_state
    = (Ret (Analysis a), demo_state)
    /\ detect_style_drift "essay" 3 demo_state = (Ret (drift_analysis a), demo_state)
    /\ analysis_total_versions a = 2%nat.
Proof.
  destruct (analyze_version_history_report isoformat_naive (fun _ => 0%float) "essay"
              demo_state) as (r & Hrun & _ & Hrep).
  - rewrite demo_versions. exact demo_numbers_fit.
  - rewrite demo_versions in Hrep.
    destruct Hrep as (a & -> & Hd & Hn & _); [discriminate|].
    exists a. repeat split; assumption.
Defined.



Lemma app_add_version_keeps_texts_nonempty_witness :
  let data := JObj [("text", JStr "Hello.")] in
  let st' := (app.add_version isoformat_naive (fun _ => "[]") TypeError demo_env "essay"
                              data empty_state).2 in
  Forall (fun v => text v <> "") (versions_of st' "essay").
Proof.
  intros data st'. apply Forall_forall. intros v Hv.
  apply (app_add_version_keeps_texts_nonempty isoformat_naive (fun _ => "[]") TypeError
           demo_env "essay" data empty_state) with (d' := "essay"); [|exact Hv].
  intros d' w Hw. unfold versions_of, empty_state in Hw. cbn [documents] in Hw.
  rewrite lookup_empty in Hw. now apply elem_of_nil in Hw.
Defined.

Lemma list_documents_summary_witness :
  exists items,
    app.list_documents isoformat_naive demo_state
    = (Ret (JObj [("documents", JArr items)]), demo_state)
    /\ length items = 1%nat.
Proof.
  destruct (list_documents_summary isoformat_naive "essay" demo_snapshot [demo_snapshot_2]
              demo_state) as (items & vlast & Hrun & Hlen & _).
  - unfold demo_state. cbn [documents]. apply lookup_singleton_eq.
  - exact demo_sorted.
  - exists items. split; [exact Hrun|]. rewrite Hlen.
    unfold demo_state. cbn [documents]. apply map_size_singleton.
Defined.
